(** * Budget tracker: CSV import, categorizer, rule learner, categories

    A shallow embedding of [src/app.jsx] (the [App] component): the
    [complete] callback of [parseCsv] with its row normalizer, categorizer,
    duplicate filter and batched writes; [handleCategoryChange] with the
    rule learner; [handleAddCategory] and [handleDeleteCategory].

    Conventions of the embedding.
    - A JavaScript string is a [string] whose characters are the UTF-16
      code units U+0000..U+00FF (Latin-1); [trim], [toLowerCase],
      [includes], [split] and [join] follow ECMAScript on that range.
    - A CSV row as PapaParse delivers it with [header: true] is an object
      from header to cell text: [gmap string string].
    - The rule table is a JavaScript object enumerated by [for ... in]; its
      own keys are kept in insertion order and enumerated as ECMAScript
      prescribes (array-index keys first, ascending, then the others).
    - JavaScript numbers and the two date-fns functions are interfaces
      ([Number], [DateFns]); every general theorem holds for any
      implementation of them, and one executable implementation of each is
      given to run the program on concrete files.
    - The document store is a record of three collections; a collection is
      the list of its documents with their identifiers.  A query returns
      every matching document and a write succeeds; quotas and failures of
      the backend are outside the embedding.  Handlers run one after the
      other (one logical actor), each to completion. *)

From Stdlib Require Import Strings.String Strings.Ascii ZArith NArith List
  DecimalString Lia Sorted.
From stdpp Require Import gmap strings list.

(** ** JavaScript string primitives *)

Module Js.

(** [WhiteSpace] and [LineTerminator] code units below U+0100:
    TAB, LF, VT, FF, CR, SP, NBSP. *)
Definition isWhiteSpace (c : ascii) : bool :=
  let n := N_of_ascii c in
  ((n =? 9) || (n =? 10) || (n =? 11) || (n =? 12) || (n =? 13)
   || (n =? 32) || (n =? 160))%N.

Fixpoint trimStart (s : string) : string :=
  match s with
  | String c r => if isWhiteSpace c then trimStart r else s
  | EmptyString => EmptyString
  end.

Fixpoint trimEnd (s : string) : string :=
  match s with
  | String c r =>
      let r' := trimEnd r in
      if isWhiteSpace c && (r' =? "")%string then "" else String c r'
  | EmptyString => EmptyString
  end.

(** [String.prototype.trim] *)
Definition trim (s : string) : string := trimEnd (trimStart s).

(** Lower case of one code unit: A-Z, and U+00C0..U+00DE except U+00D7. *)
Definition lowerChar (c : ascii) : ascii :=
  let n := N_of_ascii c in
  if (((65 <=? n) && (n <=? 90))
      || ((192 <=? n) && (n <=? 222) && negb (n =? 215)))%N
  then ascii_of_N (n + 32) else c.

(** [String.prototype.toLowerCase] *)
Fixpoint toLowerCase (s : string) : string :=
  match s with
  | String c r => String (lowerChar c) (toLowerCase r)
  | EmptyString => EmptyString
  end.

(** [s.includes(k)]: [k] occurs in [s] at some position. *)
Fixpoint includes (s k : string) : bool :=
  String.prefix k s
  || match s with
     | String _ r => includes r k
     | EmptyString => false
     end.

(** [s.split(sep)] for a separator of one code unit. *)
Fixpoint split (sep : ascii) (s : string) : list string :=
  match s with
  | EmptyString => [EmptyString]
  | String c r =>
      if Ascii.eqb c sep then EmptyString :: split sep r
      else match split sep r with
           | h :: t => String c h :: t
           | [] => [String c EmptyString]
           end
  end.

(** [a.join(sep)] *)
Fixpoint join (sep : string) (a : list string) : string :=
  match a with
  | [] => ""
  | [x] => x
  | x :: r => x +:+ sep +:+ join sep r
  end.

(** [s.replace(/[^0-9.-]+/g, "")]: only digits, [.] and [-] remain. *)
Definition isNumericChar (c : ascii) : bool :=
  let n := N_of_ascii c in
  (((48 <=? n) && (n <=? 57)) || (n =? 46) || (n =? 45))%N.

Fixpoint stripNonNumeric (s : string) : string :=
  match s with
  | String c r =>
      if isNumericChar c then String c (stripNonNumeric r)
      else stripNonNumeric r
  | EmptyString => EmptyString
  end.

(** Truthiness of a string: non-empty. *)
Definition truthy (s : string) : bool := negb (s =? "")%string.

(** [v || w] where [v] is a property read ([None] is [undefined]). *)
Definition orElse (v : option string) (w : string) : string :=
  match v with
  | Some s => if truthy s then s else w
  | None => w
  end.

(** Decimal text of a non-negative integer, as in a template literal. *)
Definition natToString (n : nat) : string :=
  NilEmpty.string_of_uint (Nat.to_uint n).

(** The maximal runs of non-white-space characters of [s] ("words"). *)
Fixpoint words (s : string) : list string :=
  match s with
  | EmptyString => []
  | String c r =>
      if isWhiteSpace c then words r
      else match r with
           | EmptyString => [String c EmptyString]
           | String d _ =>
               if isWhiteSpace d then String c EmptyString :: words r
               else match words r with
                    | h :: t => String c h :: t
                    | [] => [String c EmptyString]
                    end
           end
  end.

End Js.

(** ** JavaScript objects used as tables *)

Module Obj.

(** Own properties in insertion order (keys pairwise distinct). *)
Abbreviation t := (list (string * string)).

Definition empty : t := [].

(** [o[k]] on own properties. *)
Fixpoint get (k : string) (o : t) : option string :=
  match o with
  | [] => None
  | (k', v) :: r => if (k' =? k)%string then Some v else get k r
  end.

(** Writing an own property: an existing key keeps its place. *)
Fixpoint define (k v : string) (o : t) : t :=
  match o with
  | [] => [(k, v)]
  | (k', v') :: r =>
      if (k' =? k)%string then (k', v) :: r else (k', v') :: define k v r
  end.

(** [o[k] = v] for a string [v] on an object created by [{}].  The key
    [__proto__] is the accessor inherited from [Object.prototype]; its
    setter ignores a value that is not an object, so the assignment creates
    no property.  Every other key is written as an own property. *)
Definition set (k v : string) (o : t) : t :=
  if (k =? "__proto__")%string then o else define k v o.

Definition isDigit (c : ascii) : bool :=
  let n := N_of_ascii c in ((48 <=? n) && (n <=? 57))%N.

Fixpoint digitsValue (acc : N) (s : string) : option N :=
  match s with
  | EmptyString => Some acc
  | String c r =>
      if isDigit c then digitsValue (10 * acc + (N_of_ascii c - 48))%N r
      else None
  end.

(** A key is an array index when it is the canonical decimal text of an
    integer in 0 .. 2^32 - 2. *)
Definition arrayIndex (k : string) : option N :=
  match k with
  | EmptyString => None
  | String c r =>
      if Ascii.eqb c "0" && negb (r =? "")%string then None
      else match digitsValue 0 k with
           | Some n => if (n <? 4294967295)%N then Some n else None
           | None => None
           end
  end.

Definition isArrayIndex (k : string) : bool :=
  match arrayIndex k with Some _ => true | None => false end.

(** Insertion into a list of (index, entry) sorted by ascending index. *)
Fixpoint insertIndexed (n : N) (e : string * string)
    (l : list (N * (string * string))) : list (N * (string * string)) :=
  match l with
  | [] => [(n, e)]
  | (m, e') :: r =>
      if (n <? m)%N then (n, e) :: l else (m, e') :: insertIndexed n e r
  end.

Fixpoint indexed (o : t) : list (N * (string * string)) :=
  match o with
  | [] => []
  | (k, v) :: r =>
      match arrayIndex k with
      | Some n => insertIndexed n (k, v) (indexed r)
      | None => indexed r
      end
  end.

Definition named (o : t) : t :=
  filter (fun e => isArrayIndex (fst e) = false) o.

(** The properties in the order [for (const k in o)] visits them, each
    with the value [o[k]]. *)
Definition forIn (o : t) : t := map snd (indexed o) ++ named o.

End Obj.

(** ** Interfaces of the host: numbers and date-fns *)

(** JavaScript numbers as far as the program uses them. *)
Class Number := {
  number : Type;
  (** global [parseFloat] *)
  parseFloat : string -> number;
  (** global [isNaN] on a number *)
  isNaN : number -> bool;
  (** [x === 0] (either zero) *)
  isZero : number -> bool;
  (** the literal [0] *)
  zero : number;
  (** unary minus *)
  neg : number -> number;
  (** the text of a number inside a template literal *)
  numToString : number -> string;
  isNaN_zero : isNaN zero = false;
  isNaN_neg : forall x, isNaN (neg x) = isNaN x
}.

(** date-fns: [format(parseISO(s), 'yyyy-MM-dd')].  [parseISO] returns an
    invalid date for text it cannot read and [format] then throws a
    [RangeError]: that is [None]. *)
Class DateFns := {
  formatParseISO : string -> option string
}.

(** ** The document store *)

Module Firestore.

(** Document identifiers are generated by the backend. *)
Abbreviation docId := nat.

(** A collection: its documents with their identifiers. *)
Abbreviation collection A := (list (docId * A)).

Definition freshId {A} (c : collection A) : docId :=
  S (foldr (fun d m => Nat.max (fst d) m) 0 c).

(** [addDoc(col, data)] *)
Definition addDoc {A} (c : collection A) (data : A) : collection A :=
  c ++ [(freshId c, data)].

(** [getDocs(query(col, where ...))] *)
Definition getDocs {A} (p : A -> bool) (c : collection A) : collection A :=
  filter (fun d => p (snd d) = true) c.

Definition exists_ {A} (id : docId) (c : collection A) : bool :=
  existsb (fun d => Nat.eqb (fst d) id) c.

(** [updateDoc(ref, fields)]: fails when the document does not exist. *)
Definition updateDoc {A} (id : docId) (upd : A -> A) (c : collection A)
    : option (collection A) :=
  if exists_ id c
  then Some (map (fun d => if Nat.eqb (fst d) id
                           then (fst d, upd (snd d)) else d) c)
  else None.

(** [deleteDoc(ref)] *)
Definition deleteDoc {A} (id : docId) (c : collection A) : collection A :=
  filter (fun d => Nat.eqb (fst d) id = false) c.

End Firestore.

Section Program.

Context `{Number} `{DateFns}.

(** *** Data *)

Definition row := gmap string string.

(** What the row mapper of [parseCsv] returns. *)
Record transaction := {
  date : string;
  description : string;
  amount : number;
  category : string;
  originalRow : row
}.

(** A stored transaction: [{ ...tx, userId }]. *)
Record txDoc := {
  txDate : string;
  txDescription : string;
  txAmount : number;
  txCategory : string;
  txOriginalRow : row;
  txUserId : string
}.

Record categoryDoc := { catName : string; catUserId : string }.

Record ruleDoc := {
  ruleKeyword : string;
  ruleCategory : string;
  ruleUserId : string
}.

(** The three collections under [artifacts/appId/users/userId/]. *)
Record store := {
  transactionsCol : Firestore.collection txDoc;
  categoriesCol : Firestore.collection categoryDoc;
  rulesCol : Firestore.collection ruleDoc
}.

(** The component's state ([useState] cells), with [papa] for
    [window.Papa] being defined and [file] holding the rows PapaParse
    delivers for the selected file. *)
Record state := {
  db : bool;
  userId : option string;
  transactions : Firestore.collection txDoc;
  categories : Firestore.collection categoryDoc;
  rules : Obj.t;
  file : option (list row);
  loading : bool;
  message : string;
  newCategoryName : string;
  papa : bool
}.

Definition setMessage (m : string) (st : state) : state :=
  {| db := db st; userId := userId st; transactions := transactions st;
     categories := categories st; rules := rules st; file := file st;
     loading := loading st; message := m;
     newCategoryName := newCategoryName st; papa := papa st |}.

Definition setLoading (b : bool) (st : state) : state :=
  {| db := db st; userId := userId st; transactions := transactions st;
     categories := categories st; rules := rules st; file := file st;
     loading := b; message := message st;
     newCategoryName := newCategoryName st; papa := papa st |}.

Definition setFile (f : option (list row)) (st : state) : state :=
  {| db := db st; userId := userId st; transactions := transactions st;
     categories := categories st; rules := rules st; file := f;
     loading := loading st; message := message st;
     newCategoryName := newCategoryName st; papa := papa st |}.

Definition setNewCategoryName (n : string) (st : state) : state :=
  {| db := db st; userId := userId st; transactions := transactions st;
     categories := categories st; rules := rules st; file := file st;
     loading := loading st; message := message st;
     newCategoryName := n; papa := papa st |}.

(** [db && userId]: the signed-in user, when both are truthy. *)
Definition session (st : state) : option string :=
  if db st then
    match userId st with
    | Some u => if Js.truthy u then Some u else None
    | None => None
    end
  else None.

(** The snapshot listeners: the rule table is rebuilt from the rule
    documents, keyed by the lower-cased keyword. *)
Definition rulesOfSnapshot (docs : Firestore.collection ruleDoc) : Obj.t :=
  fold_left
    (fun fetched d =>
       Obj.set (Js.toLowerCase (ruleKeyword (snd d)))
               (ruleCategory (snd d)) fetched)
    docs Obj.empty.

(** *** Row normalizer (the [map] callback of [parseCsv]) *)

Definition rawDate (r : row) : string :=
  Js.orElse (r !! "Date")
    (Js.orElse (r !! "Transaction Date")
       (Js.orElse (r !! "Posting Date") "")).

Definition rawDescription (r : row) : string :=
  Js.orElse (r !! "Description")
    (Js.orElse (r !! "Payee")
       (Js.orElse (r !! "Transaction Details") "")).

Definition rawAmount (r : row) : string :=
  Js.orElse (r !! "Amount")
    (Js.orElse (r !! "Debit") (Js.orElse (r !! "Credit") "")).

(** Truthiness of a number: neither [NaN] nor a zero. *)
Definition numTruthy (x : number) : bool := negb (isNaN x) && negb (isZero x).

(** [row[k] && parseFloat(row[k])] as a condition. *)
Definition usable (r : row) (k : string) : bool :=
  match r !! k with
  | Some s => Js.truthy s && numTruthy (parseFloat s)
  | None => false
  end.

Definition cell (r : row) (k : string) : string := default "" (r !! k).

(** The amount after the debit/credit/amount resolution. *)
Definition resolveAmount (r : row) : number :=
  if usable r "Debit" then neg (parseFloat (cell r "Debit"))
  else if usable r "Credit" then parseFloat (cell r "Credit")
  else parseFloat (Js.stripNonNumeric (rawAmount r)).

(** The [for ... in] loop with its [break]. *)
Fixpoint firstMatch (lowerDescription : string) (entries : Obj.t)
    (category : string) : string :=
  match entries with
  | [] => category
  | (keyword, c) :: rest =>
      if Js.includes lowerDescription keyword then c
      else firstMatch lowerDescription rest category
  end.

Definition categorize (description : string) (rules : Obj.t) : string :=
  firstMatch (Js.toLowerCase description) (Obj.forIn rules) "Uncategorized".

(** One row; [None] when [format] throws. *)
Definition normalizeRow (rules : Obj.t) (r : row) : option transaction :=
  let d := rawDate r in
  let desc := rawDescription r in
  let a := resolveAmount r in
  let cat := categorize desc rules in
  match (if Js.truthy d then formatParseISO d else Some "") with
  | Some d' =>
      Some {| date := d'; description := Js.trim desc;
              amount := if isNaN a then zero else a;
              category := cat; originalRow := r |}
  | None => None
  end.

(** [results.data.map(...)]: the first throwing row ends the callback. *)
Fixpoint mapRows (rules : Obj.t) (data : list row)
    : option (list transaction) :=
  match data with
  | [] => Some []
  | r :: rest =>
      match normalizeRow rules r with
      | Some tx =>
          match mapRows rules rest with
          | Some txs => Some (tx :: txs)
          | None => None
          end
      | None => None
      end
  end.

(** The [filter] callback: [tx.description && !isNaN(tx.amount)]. *)
Definition valid (tx : transaction) : bool :=
  Js.truthy (description tx) && negb (isNaN (amount tx)).

Definition parsedTransactions (rules : Obj.t) (data : list row)
    : option (list transaction) :=
  match mapRows rules data with
  | Some txs => Some (List.filter valid txs)
  | None => None
  end.

(** *** Duplicate filter and batched writes *)

Definition batchSize : nat := 50.

(** The identity strings, for a candidate and for a stored document. *)
Definition txIdentifier (tx : transaction) : string :=
  date tx +:+ "-" +:+ description tx +:+ "-" +:+ numToString (amount tx).

Definition docIdentifier (d : txDoc) : string :=
  txDate d +:+ "-" +:+ txDescription d +:+ "-" +:+ numToString (txAmount d).

Definition withUser (tx : transaction) (u : string) : txDoc :=
  {| txDate := date tx; txDescription := description tx;
     txAmount := amount tx; txCategory := category tx;
     txOriginalRow := originalRow tx; txUserId := u |}.

(** [a.filter((v, i, a) => a.indexOf(v) === i)]: first occurrences. *)
Fixpoint uniqueFrom (seen l : list string) : list string :=
  match l with
  | [] => []
  | v :: r =>
      if bool_decide (v ∈ seen) then uniqueFrom seen r
      else v :: uniqueFrom (seen ++ [v]) r
  end.

Definition unique (l : list string) : list string := uniqueFrom [] l.

(** The query of one batch and the set built from its result. *)
Definition existingTxSet (u : string) (batch : list transaction)
    (col : Firestore.collection txDoc) : gset string :=
  let dates := unique (map date batch) in
  let existingDocs :=
    Firestore.getDocs
      (fun d => bool_decide (txDate d ∈ dates) && (txUserId d =? u)%string)
      col in
  list_to_set (map (fun d => docIdentifier (snd d)) existingDocs).

(** [for (const tx of batch)]: the set is the one built before the loop. *)
Fixpoint writeBatch (u : string) (existing : gset string)
    (batch : list transaction)
    (acc : Firestore.collection txDoc * nat)
    : Firestore.collection txDoc * nat :=
  match batch with
  | [] => acc
  | tx :: rest =>
      if bool_decide (txIdentifier tx ∈ existing)
      then writeBatch u existing rest acc
      else writeBatch u existing rest
             (Firestore.addDoc (fst acc) (withUser tx u), S (snd acc))
  end.

(** The values [i] takes in [for (let i = 0; i < n; i += batchSize)]. *)
Definition batchStarts (n : nat) : list nat :=
  map (fun b => b * batchSize) (seq 0 ((n + (batchSize - 1)) / batchSize)).

(** The inner [j] loop: the rows [i .. i + batchSize - 1] that exist. *)
Definition batchAt (txs : list transaction) (i : nat) : list transaction :=
  take batchSize (drop i txs).

Definition processBatch (u : string) (txs : list transaction)
    (acc : Firestore.collection txDoc * nat) (i : nat)
    : Firestore.collection txDoc * nat :=
  let batch := batchAt txs i in
  writeBatch u (existingTxSet u batch (fst acc)) batch acc.

(** The outer loop: the collection after it, and [savedCount]. *)
Definition saveAll (u : string) (txs : list transaction)
    (col : Firestore.collection txDoc)
    : Firestore.collection txDoc * nat :=
  fold_left (processBatch u txs) (batchStarts (length txs)) (col, 0).

Definition withTransactions (c : Firestore.collection txDoc) (s : store)
    : store :=
  {| transactionsCol := c; categoriesCol := categoriesCol s;
     rulesCol := rulesCol s |}.

Definition withCategories (c : Firestore.collection categoryDoc)
    (s : store) : store :=
  {| transactionsCol := transactionsCol s; categoriesCol := c;
     rulesCol := rulesCol s |}.

Definition withRules (c : Firestore.collection ruleDoc) (s : store)
    : store :=
  {| transactionsCol := transactionsCol s;
     categoriesCol := categoriesCol s; rulesCol := c |}.

(** *** [parseCsv] *)

(** The [complete] callback, entered with [loading] set and the message
    'Parsing CSV...'.  When a row throws, the callback's promise rejects:
    nothing after the [map] runs. *)
Definition complete (data : list row) (st : state) (s : store)
    : state * store :=
  match parsedTransactions (rules st) data with
  | None => (st, s)
  | Some txs =>
      match session st with
      | Some u =>
          let '(col, savedCount) := saveAll u txs (transactionsCol s) in
          (setLoading false
             (setFile None
                (setMessage ("Successfully parsed and added "
                             +:+ Js.natToString savedCount
                             +:+ " new transactions.") st)),
           withTransactions col s)
      | None =>
          (setLoading false (setMessage "Firestore or user not ready." st),
           s)
      end
  end.

Definition parseCsv (st : state) (s : store) : state * store :=
  match file st with
  | None => (setMessage "Please select a CSV file first." st, s)
  | Some data =>
      if negb (papa st)
      then (setMessage
              "PapaParse library is not loaded. Please try again or refresh."
              st, s)
      else complete data (setMessage "Parsing CSV..." (setLoading true st)) s
  end.

(** *** [handleCategoryChange] and the rule learner *)

(** [lowerDescription.split(' ').slice(0, 2).join(' ')] *)
Definition keywordCandidate (description : string) : string :=
  Js.join " " (take 2 (Js.split " " (Js.toLowerCase description))).

(** [!rules[k] || rules[k] !== newCategory] *)
Definition ruleOutdated (rules : Obj.t) (k newCategory : string) : bool :=
  match Obj.get k rules with
  | Some c => negb (Js.truthy c) || negb (c =? newCategory)%string
  | None => true
  end.

(** [updateDoc(ruleDocRef, { category: newCategory })] *)
Definition setRuleCategory (c : string) (d : ruleDoc) : ruleDoc :=
  {| ruleKeyword := ruleKeyword d; ruleCategory := c;
     ruleUserId := ruleUserId d |}.

(** [where('keyword', '==', k), where('userId', '==', u)] *)
Definition ruleMatches (u k : string) (d : ruleDoc) : bool :=
  (ruleKeyword d =? k)%string && (ruleUserId d =? u)%string.

(** The learner's query: the rule documents of one owner and keyword. *)
Definition rulesFor (u k : string) (col : Firestore.collection ruleDoc)
    : Firestore.collection ruleDoc :=
  Firestore.getDocs (ruleMatches u k) col.

(** The query on the rules collection, then insert or update. *)
Definition upsertRule (u k newCategory : string)
    (col : Firestore.collection ruleDoc) : Firestore.collection ruleDoc :=
  match rulesFor u k col with
  | [] =>
      Firestore.addDoc col
        {| ruleKeyword := k; ruleCategory := newCategory; ruleUserId := u |}
  | (id, _) :: _ =>
      default col
        (Firestore.updateDoc id (setRuleCategory newCategory) col)
  end.

(** What follows the transaction update, on the rules collection. *)
Definition learnRule (st : state) (u : string)
    (transactionId : Firestore.docId) (newCategory : string)
    (col : Firestore.collection ruleDoc) : Firestore.collection ruleDoc :=
  match find (fun d => Nat.eqb (fst d) transactionId) (transactions st) with
  | Some (_, transactionToUpdate) =>
      if negb (newCategory =? "Uncategorized")%string
         && negb (newCategory =? "")%string
      then
        let k := keywordCandidate (txDescription transactionToUpdate) in
        if Js.truthy k && ruleOutdated (rules st) k newCategory
        then upsertRule u k newCategory col
        else col
      else col
  | None => col
  end.

Definition setCategory (c : string) (d : txDoc) : txDoc :=
  {| txDate := txDate d; txDescription := txDescription d;
     txAmount := txAmount d; txCategory := c;
     txOriginalRow := txOriginalRow d; txUserId := txUserId d |}.

(** [updateDoc] on a transaction that is not stored throws and the
    [catch] reports it; the text after the colon stands for the backend's
    error message. *)
Definition handleCategoryChange (transactionId : Firestore.docId)
    (newCategory : string) (st : state) (s : store) : state * store :=
  match session st with
  | None => (st, s)
  | Some u =>
      match Firestore.updateDoc transactionId (setCategory newCategory)
              (transactionsCol s) with
      | None =>
          (setMessage "Error updating category: No document to update" st,
           s)
      | Some col =>
          (setMessage "Transaction category updated." st,
           withRules (learnRule st u transactionId newCategory (rulesCol s))
             (withTransactions col s))
      end
  end.

(** *** Categories *)

Definition handleAddCategory (st : state) (s : store) : state * store :=
  let name := Js.trim (newCategoryName st) in
  match (if Js.truthy name then session st else None) with
  | None => (setMessage "Category name cannot be empty." st, s)
  | Some u =>
      if existsb
           (fun cat => (Js.toLowerCase (catName (snd cat))
                        =? Js.toLowerCase name)%string)
           (categories st)
      then (setMessage "Category already exists." st, s)
      else
        (setLoading false
           (setMessage "Category added successfully!"
              (setNewCategoryName "" (setLoading true st))),
         withCategories
           (Firestore.addDoc (categoriesCol s)
              {| catName := name; catUserId := u |}) s)
  end.

Definition handleDeleteCategory (categoryId : Firestore.docId)
    (st : state) (s : store) : state * store :=
  match session st with
  | None => (st, s)
  | Some _ =>
      (setLoading false
         (setMessage "Category deleted successfully!" (setLoading true st)),
       withCategories (Firestore.deleteDoc categoryId (categoriesCol s)) s)
  end.

(** The listeners deliver the collections to the component's state. *)
Definition sync (st : state) (s : store) : state :=
  {| db := db st; userId := userId st; transactions := transactionsCol s;
     categories := categoriesCol s;
     rules := rulesOfSnapshot (rulesCol s); file := file st;
     loading := loading st; message := message st;
     newCategoryName := newCategoryName st; papa := papa st |}.

(** *** Notions used to state the properties *)

Definition emptyStore : store :=
  {| transactionsCol := []; categoriesCol := []; rulesCol := [] |}.

(** The stores the handlers produce from the empty one, whatever the
    component's state is when a handler is called. *)
Inductive reachable : store -> Prop :=
| reach_empty : reachable emptyStore
| reach_parseCsv st s :
    reachable s -> reachable (snd (parseCsv st s))
| reach_categoryChange id c st s :
    reachable s -> reachable (snd (handleCategoryChange id c st s))
| reach_addCategory st s :
    reachable s -> reachable (snd (handleAddCategory st s))
| reach_deleteCategory id st s :
    reachable s -> reachable (snd (handleDeleteCategory id st s)).

(** What [updateDoc] on document [id] does to each rule document. *)
Definition updated (id : Firestore.docId) (c : string)
    (d : Firestore.docId * ruleDoc) : Firestore.docId * ruleDoc :=
  if Nat.eqb (fst d) id then (fst d, setRuleCategory c (snd d)) else d.

(** At most one rule per owner and keyword, and no identifier twice. *)
Definition rulesUnique (col : Firestore.collection ruleDoc) : Prop :=
  NoDup (map fst col) /\ forall u k, length (rulesFor u k col) <= 1.

(** Two candidates with the same date, description and amount. *)
Definition sameTriple (a b : transaction) : Prop :=
  date a = date b /\ description a = description b /\ amount a = amount b.

(** The categorizer as the specification words it: the table scanned in
    insertion order. *)
Definition categorizeInsertionOrder (description : string) (rules : Obj.t)
    : string :=
  firstMatch (Js.toLowerCase description) rules "Uncategorized".

(** The keyword as the specification words it: the first two
    white-space-separated tokens, joined by one space. *)
Definition keywordOfWords (description : string) : string :=
  Js.join " " (take 2 (Js.words (Js.toLowerCase description))).

(** A non-empty text without white space. *)
Fixpoint noWhiteSpace (w : string) : bool :=
  match w with
  | EmptyString => true
  | String c r => negb (Js.isWhiteSpace c) && noWhiteSpace r
  end.

Definition isWord (w : string) : bool := Js.truthy w && noWhiteSpace w.

(** Adding a category is refused for this name and these categories. *)
Definition refused (name : string)
    (existing : Firestore.collection categoryDoc) : Prop :=
  Js.trim name = ""
  \/ exists cat, cat ∈ existing
       /\ Js.toLowerCase (catName (snd cat))
          = Js.toLowerCase (Js.trim name).

(** *** Notions used to state further properties *)

(** What a stored transaction keeps for good: everything but its
    category. *)
Definition txFixed (d : Firestore.docId * txDoc)
    : Firestore.docId * (string * string * number * row * string) :=
  (fst d, (txDate (snd d), txDescription (snd d), txAmount (snd d),
           txOriginalRow (snd d), txUserId (snd d))).

(** What a stored rule keeps for good: everything but its category. *)
Definition ruleFixed (d : Firestore.docId * ruleDoc)
    : Firestore.docId * (string * string) :=
  (fst d, (ruleKeyword (snd d), ruleUserId (snd d))).

(** No two categories with the same name up to letter case. *)
Definition categoriesUnique (col : Firestore.collection categoryDoc) : Prop :=
  NoDup (map (fun d => Js.toLowerCase (catName (snd d))) col).

(** [disabled={!file || loading || !isAuthenticated}] (Process CSV) *)
Definition processCsvDisabled (isAuthenticated : bool) (st : state) : bool :=
  negb (match file st with Some _ => true | None => false end)
  || loading st || negb isAuthenticated.

(** [disabled={!newCategoryName.trim() || loading || !isAuthenticated}]
    (Add Category) *)
Definition addCategoryDisabled (isAuthenticated : bool) (st : state) : bool :=
  negb (Js.truthy (Js.trim (newCategoryName st)))
  || loading st || negb isAuthenticated.
(** The rule documents that give the rule table its entry for [k]: their
    lower-cased keyword is [k] and is not [__proto__]. *)
Definition keyedBy (k : string) (d : Firestore.docId * ruleDoc) : bool :=
  negb (Js.toLowerCase (ruleKeyword (snd d)) =? "__proto__")%string
  && (Js.toLowerCase (ruleKeyword (snd d)) =? k)%string.

(** The rule documents of an owner who wrote them all through the
    learner: his own, keyed in lower case. *)
Definition ownRules (u : string) (col : Firestore.collection ruleDoc) : bool :=
  forallb (fun e => (ruleUserId (snd e) =? u)%string
                    && (Js.toLowerCase (ruleKeyword (snd e))
                        =? ruleKeyword (snd e))%string) col.

End Program.

(** ** An executable implementation of the number interface

    Numbers are kept as exact decimals: sign, digits and a power of ten,
    with no trailing zero digit.  [parseFloat] reads the ECMAScript
    [StrDecimalLiteral] prefix and [toString] writes the ECMAScript text.
    The rounding of a literal to a binary64 value is not performed, so
    this implementation agrees with an engine on the literals that survive
    a round trip through binary64 (up to 15 significant digits, magnitude
    within the normal range). *)

Module Dec.

Inductive t :=
| NaN
| Inf (negative : bool)
| Fin (negative : bool) (m : N) (e : Z).

Definition digit (c : ascii) : option N :=
  let n := N_of_ascii c in
  if ((48 <=? n) && (n <=? 57))%N then Some (n - 48)%N else None.

(** The longest run of digits at the head of [s]: the value accumulated
    on [acc], the number of digits read, and the rest. *)
Fixpoint digits (acc : N) (cnt : nat) (s : string) : N * nat * string :=
  match s with
  | String c r =>
      match digit c with
      | Some d => digits (10 * acc + d)%N (S cnt) r
      | None => (acc, cnt, s)
      end
  | EmptyString => (acc, cnt, s)
  end.

Fixpoint strip (fuel : nat) (m : N) (e : Z) : N * Z :=
  match fuel with
  | O => (m, e)
  | S f =>
      if (m =? 0)%N then (0%N, 0%Z)
      else if (m mod 10 =? 0)%N then strip f (m / 10)%N (e + 1)%Z
      else (m, e)
  end.

Definition make (negative : bool) (m : N) (e : Z) : t :=
  let '(m', e') := strip (S (N.to_nat (N.log2 m))) m e in
  Fin negative m' e'.

Definition signOf (s : string) : bool * string :=
  match s with
  | String "-" r => (true, r)
  | String "+" r => (false, r)
  | _ => (false, s)
  end.

(** [ExponentPart], when complete; otherwise no exponent is read. *)
Definition exponent (s : string) : Z :=
  match s with
  | String c r =>
      if Ascii.eqb c "e" || Ascii.eqb c "E" then
        let '(negative, r') := signOf r in
        let '(v, cnt, _) := digits 0 0 r' in
        if Nat.eqb cnt 0 then 0%Z
        else if negative then (- Z.of_N v)%Z else Z.of_N v
      else 0%Z
  | EmptyString => 0%Z
  end.

Definition parseFloat (s : string) : t :=
  let '(negative, s0) := signOf (Js.trimStart s) in
  if String.prefix "Infinity" s0 then Inf negative
  else
    let '(i, ni, s1) := digits 0 0 s0 in
    let '(f, nf, s2) :=
      match s1 with
      | String "." r => digits i 0 r
      | _ => (i, 0, s1)
      end in
    if Nat.eqb (ni + nf) 0 then NaN
    else make negative f (exponent s2 - Z.of_nat nf)%Z.

Definition isNaN (x : t) : bool :=
  match x with NaN => true | _ => false end.

Definition isZero (x : t) : bool :=
  match x with Fin _ m _ => (m =? 0)%N | _ => false end.

Definition zero : t := Fin false 0 0.

Definition neg (x : t) : t :=
  match x with
  | NaN => NaN
  | Inf s => Inf (negb s)
  | Fin s m e => Fin (negb s) m e
  end.

Fixpoint zeros (n : nat) : string :=
  match n with O => "" | S k => String "0" (zeros k) end.

Fixpoint takeS (n : nat) (s : string) : string :=
  match n, s with
  | S k, String c r => String c (takeS k r)
  | _, _ => ""
  end.

Fixpoint dropS (n : nat) (s : string) : string :=
  match n, s with
  | S k, String _ r => dropS k r
  | _, _ => s
  end.

Definition natural (n : N) : string := NilEmpty.string_of_uint (N.to_uint n).

(** [Number::toString], radix 10. *)
Definition toString (x : t) : string :=
  match x with
  | NaN => "NaN"
  | Inf s => (if s then "-" else "") +:+ "Infinity"
  | Fin s m e =>
      if (m =? 0)%N then "0"
      else
        let ds := natural m in
        let k := Z.of_nat (String.length ds) in
        let n := (k + e)%Z in
        (if s then "-" else "") +:+
        (if ((k <=? n) && (n <=? 21))%Z
         then ds +:+ zeros (Z.to_nat (n - k))
         else if ((0 <? n) && (n <=? 21))%Z
         then takeS (Z.to_nat n) ds +:+ "." +:+ dropS (Z.to_nat n) ds
         else if ((-6 <? n) && (n <=? 0))%Z
         then "0." +:+ zeros (Z.to_nat (- n)) +:+ ds
         else
           let ex := (n - 1)%Z in
           let exs := (if (ex <? 0)%Z then "-" else "+")
                      +:+ natural (Z.to_N (Z.abs ex)) in
           if (k =? 1)%Z then ds +:+ "e" +:+ exs
           else takeS 1 ds +:+ "." +:+ dropS 1 ds +:+ "e" +:+ exs)
  end.

End Dec.

#[global] Instance decNumber : Number := {|
  number := Dec.t;
  parseFloat := Dec.parseFloat;
  isNaN := Dec.isNaN;
  isZero := Dec.isZero;
  zero := Dec.zero;
  neg := Dec.neg;
  numToString := Dec.toString;
  isNaN_zero := eq_refl;
  isNaN_neg := fun x => match x with
                        | Dec.NaN => eq_refl
                        | Dec.Inf _ => eq_refl
                        | Dec.Fin _ _ _ => eq_refl
                        end
|}.

(** ** An executable implementation of the date interface

    The extended calendar form [YYYY-MM-DD] of ISO 8601 is read, with the
    month and day validated as date-fns does; the text printed back has the
    same year, month and day (year 0 prints as 0001, as the [yyyy] token
    does).  Every other text is taken as unreadable: the other forms
    [parseISO] accepts (basic and week dates, times, zones) are outside
    this implementation. *)

Module IsoCalendar.

Definition twoDigits (a b : ascii) : option N :=
  match Dec.digit a, Dec.digit b with
  | Some x, Some y => Some (10 * x + y)%N
  | _, _ => None
  end.

Definition fourDigits (a b c d : ascii) : option N :=
  match twoDigits a b, twoDigits c d with
  | Some x, Some y => Some (100 * x + y)%N
  | _, _ => None
  end.

Definition isLeapYear (y : N) : bool :=
  ((y mod 400 =? 0) || ((y mod 4 =? 0) && negb (y mod 100 =? 0)))%N.

Definition daysInMonth (y m : N) : N :=
  if (m =? 2)%N then (if isLeapYear y then 29 else 28)%N
  else if ((m =? 4) || (m =? 6) || (m =? 9) || (m =? 11))%N then 30%N
  else 31%N.

Definition validDate (y m d : N) : bool :=
  ((1 <=? m) && (m <=? 12) && (1 <=? d) && (d <=? daysInMonth y m))%N.

Definition formatParseISO (s : string) : option string :=
  match s with
  | String y1 (String y2 (String y3 (String y4 (String "-"
      (String m1 (String m2 (String "-"
        (String d1 (String d2 EmptyString))))))))) =>
      match fourDigits y1 y2 y3 y4, twoDigits m1 m2, twoDigits d1 d2 with
      | Some y, Some m, Some d =>
          if validDate y m d then
            Some (if (y =? 0)%N
                  then String "0" (String "0" (String "0" (String "1"
                         (String "-" (String m1 (String m2 (String "-"
                            (String d1 (String d2 EmptyString)))))))))
                  else s)
          else None
      | _, _, _ => None
      end
  | _ => None
  end.

End IsoCalendar.

#[global] Instance isoCalendar : DateFns := {|
  formatParseISO := IsoCalendar.formatParseISO
|}.

(** ** Running the program on concrete data *)

Definition mkRow (cells : list (string * string)) : row :=
  list_to_map cells.

(** A signed-in component with a file selected and nothing fetched yet. *)
Definition signedIn (u : string) (rules : Obj.t) (data : option (list row))
    : state :=
  {| db := true; userId := Some u; transactions := []; categories := [];
     rules := rules; file := data; loading := false; message := "";
     newCategoryName := ""; papa := true |}.


Definition wholeFoods : row :=
  mkRow [("Date", "2024-01-05"); ("Description", " Whole Foods Market ");
         ("Debit", "42.17")].

Definition coffee : row :=
  mkRow [("Date", "2024-01-05"); ("Description", "Coffee");
         ("Amount", "-3.50")].

(** A file with the same row twice. *)
Definition coffeeTwice : list row := [coffee; coffee].

(** Two rows that differ in description and amount. *)
Definition minusFive : row :=
  mkRow [("Date", "2024-01-05"); ("Description", "a"); ("Amount", "-5")].

Definition plusFive : row :=
  mkRow [("Date", "2024-01-05"); ("Description", "a-"); ("Amount", "5")].

(** A row dated the way many bank exports do, month/day/year. *)
Definition slashDate : row :=
  mkRow [("Date", "01/05/2024"); ("Description", "Tea"); ("Amount", "-2")].

(** A row whose amount has nothing numeric in it. *)
Definition unreadableAmount : row :=
  mkRow [("Date", "2024-01-05"); ("Description", "Coffee");
         ("Amount", "abc")].

Definition unreadableAmountTx : transaction :=
  {| date := "2024-01-05"; description := "Coffee"; amount := zero;
     category := "Uncategorized"; originalRow := unreadableAmount |}.

(** A row with a zero debit next to an amount. *)
Definition zeroDebit : row := mkRow [("Debit", "0"); ("Amount", "5")].

(** A rule table received from two rule documents, the second of which
    has a cheque number as its keyword. *)
Definition chequeRules : Firestore.collection ruleDoc :=
  [(1, {| ruleKeyword := "check"; ruleCategory := "Misc";
          ruleUserId := "u1" |});
   (2, {| ruleKeyword := "1042"; ruleCategory := "Rent";
          ruleUserId := "u1" |})].

Definition chequeTable : Obj.t := rulesOfSnapshot chequeRules.

Definition shell : row :=
  mkRow [("Date", "2024-02-01"); ("Description", "Shell Gas Station");
         ("Amount", "-40")].

(** One import, then one manual recategorization of the imported row. *)
Definition shellStore : store :=
  snd (parseCsv (signedIn "u1" [] (Some [shell])) emptyStore).

Definition learnedStore : store :=
  snd (handleCategoryChange 1 "Auto" (sync (signedIn "u1" [] None) shellStore)
         shellStore).

(** A component about to add a category that exists in another case. *)
Definition groceriesStore : store :=
  {| transactionsCol := [];
     categoriesCol := [(1, {| catName := "Groceries"; catUserId := "u1" |})];
     rulesCol := [] |}.

Definition typing (name : string) (s : store) : state :=
  setNewCategoryName name (sync (signedIn "u1" [] None) s).

(** What a stored transaction shows: date, description, amount text. *)
Definition shown (s : store) : list (string * string * string) :=
  map (fun d => (txDate (snd d), txDescription (snd d),
                 numToString (txAmount (snd d))))
      (transactionsCol s).

(** A row of an export with separate debit and credit columns. *)
Definition salary : row :=
  mkRow [("Date", "2024-01-31"); ("Description", "Salary"); ("Debit", "");
         ("Credit", "2500.00")].

(** A component before the sign-in has completed. *)
Definition signedOut (data : option (list row)) (name : string) : state :=
  {| db := false; userId := None; transactions := []; categories := [];
     rules := []; file := data; loading := false; message := "";
     newCategoryName := name; papa := true |}.

(** The transaction of [learnedStore] as the listener delivers it. *)
Definition learnedDoc : txDoc :=
  {| txDate := "2024-02-01"; txDescription := "Shell Gas Station";
     txAmount := neg (parseFloat "40"); txCategory := "Auto";
     txOriginalRow := shell; txUserId := "u1" |}.


(** * Properties *)

(** ** Strings, the categorizer and the enumeration order *)

Section StringTheory.

Lemma append_cons c a b : String c a +:+ b = String c (a +:+ b).
Proof. reflexivity. Qed.

Lemma append_nil b : "" +:+ b = b.
Proof. reflexivity. Qed.

Lemma prefix_append k s :
  String.prefix k s = true <-> exists b, s = k +:+ b.
Proof.
  revert s. induction k as [|c k IH]; intros s; simpl.
  - split; [intros _; now exists s | now destruct s].
  - destruct s as [|d s].
    + split; [discriminate | intros [b Hb]; discriminate Hb].
    + simpl. destruct (ascii_dec c d) as [-> | Hne].
      * rewrite IH. split; intros [b Hb]; exists b;
          rewrite append_cons in *; congruence.
      * split; [discriminate |].
        intros [b Hb]. rewrite append_cons in Hb. congruence.
Qed.

(** [includes] is occurrence as a substring. *)
Lemma includes_substring s k :
  Js.includes s k = true <-> exists a b, s = a +:+ k +:+ b.
Proof.
  induction s as [|c s IH]; cbn [Js.includes].
  - rewrite orb_false_r, prefix_append. split.
    + intros [b Hb]. now exists ""%string, b.
    + intros (a & b & Hab). destruct a; [now exists b | discriminate Hab].
  - rewrite orb_true_iff, IH, prefix_append. split.
    + intros [[b Hb] | (a & b & Hab)].
      * now exists ""%string, b.
      * exists (String c a), b. rewrite append_cons. now rewrite Hab.
    + intros (a & b & Hab). destruct a as [|d a];
        [rewrite append_nil in Hab | rewrite append_cons in Hab].
      * left. now exists b.
      * right. exists a, b. congruence.
Qed.

Lemma firstMatch_hit l before k c after cat :
  Js.includes l k = true ->
  (forall e, e ∈ before -> Js.includes l (fst e) = false) ->
  firstMatch l (before ++ (k, c) :: after) cat = c.
Proof.
  intros Hk. induction before as [|[k' c'] before IH]; intros Hb; simpl.
  - now rewrite Hk.
  - rewrite (Hb (k', c') ltac:(left) : Js.includes l k' = false).
    apply IH. intros e He. apply Hb. now right.
Qed.

Lemma firstMatch_miss l entries cat :
  (forall e, e ∈ entries -> Js.includes l (fst e) = false) ->
  firstMatch l entries cat = cat.
Proof.
  induction entries as [|[k c] entries IH]; intros Hb; simpl.
  - reflexivity.
  - rewrite (Hb (k, c) ltac:(left) : Js.includes l k = false).
    apply IH. intros e He. apply Hb. now right.
Qed.

(** *** The enumeration order of a table *)

Lemma isArrayIndex_false k :
  Obj.isArrayIndex k = false <-> Obj.arrayIndex k = None.
Proof.
  unfold Obj.isArrayIndex. destruct (Obj.arrayIndex k); split; congruence.
Qed.

Lemma indexed_none o :
  (forall e, e ∈ o -> Obj.isArrayIndex (fst e) = false) -> Obj.indexed o = [].
Proof.
  induction o as [|[k v] o IH]; intros Hn; simpl; [reflexivity |].
  rewrite (proj1 (isArrayIndex_false k) (Hn (k, v) ltac:(left))).
  apply IH. intros e He. apply Hn. now right.
Qed.

Lemma named_all o :
  (forall e, e ∈ o -> Obj.isArrayIndex (fst e) = false) -> Obj.named o = o.
Proof.
  induction o as [|e o IH]; intros Hn; [reflexivity |].
  unfold Obj.named in *. rewrite filter_cons.
  rewrite decide_True by (apply Hn; left).
  f_equal. apply IH. intros x Hx. apply Hn. now right.
Qed.

(** Without array-index keys, enumeration order is insertion order. *)
Lemma forIn_insertion_order o :
  (forall e, e ∈ o -> Obj.isArrayIndex (fst e) = false) -> Obj.forIn o = o.
Proof.
  intros Hn. unfold Obj.forIn. now rewrite indexed_none, named_all.
Qed.

Lemma elem_of_insertIndexed n e l x :
  x ∈ Obj.insertIndexed n e l <-> x = (n, e) \/ x ∈ l.
Proof.
  induction l as [|[m e'] l IH]; simpl.
  - rewrite list_elem_of_singleton. split; [auto |].
    intros [-> | Hx]; [reflexivity | inversion Hx].
  - destruct (n <? m)%N.
    + now rewrite elem_of_cons.
    + rewrite !elem_of_cons, IH. tauto.
Qed.

Lemma elem_of_indexed o n e :
  (n, e) ∈ Obj.indexed o <-> e ∈ o /\ Obj.arrayIndex (fst e) = Some n.
Proof.
  induction o as [|[k v] o IH]; simpl.
  - split; [intros Hx; inversion Hx | intros [Hx _]; inversion Hx].
  - destruct (Obj.arrayIndex k) as [m|] eqn:Hk.
    + rewrite elem_of_insertIndexed, IH, elem_of_cons. split.
      * intros [Heq | [Hin Hi]]; [| auto].
        injection Heq as -> ->. auto.
      * intros [[-> | Hin] Hi]; [| auto].
        left. simpl in Hi. congruence.
    + rewrite IH, elem_of_cons. split; [intros [? ?]; auto |].
      intros [[-> | Hin] Hi]; [simpl in Hi; congruence | auto].
Qed.

Lemma insertIndexed_sorted n e l :
  Sorted N.le (map fst l) -> Sorted N.le (map fst (Obj.insertIndexed n e l)).
Proof.
  induction l as [|[m e'] l IH]; intros Hs; simpl.
  - repeat constructor.
  - destruct (n <? m)%N eqn:Hlt.
    + simpl. constructor; [exact Hs |]. constructor.
      apply N.ltb_lt in Hlt. simpl. lia.
    + simpl in *. inversion Hs as [|? ? Hs' Hhd]; subst.
      constructor; [now apply IH |].
      apply N.ltb_ge in Hlt.
      destruct l as [|[m' e''] l]; simpl in *.
      * now constructor.
      * destruct (n <? m')%N; simpl; constructor; [exact Hlt |].
        now inversion Hhd.
Qed.

Lemma indexed_sorted o : Sorted N.le (map fst (Obj.indexed o)).
Proof.
  induction o as [|[k v] o IH]; simpl; [constructor |].
  destruct (Obj.arrayIndex k); [now apply insertIndexed_sorted | exact IH].
Qed.

(** Enumeration visits exactly the own properties. *)
Lemma elem_of_forIn o e : e ∈ Obj.forIn o <-> e ∈ o.
Proof.
  unfold Obj.forIn, Obj.named.
  rewrite elem_of_app, list_elem_of_filter. split.
  - intros [Hi | [_ Hin]]; [| exact Hin].
    apply list_elem_of_In, in_map_iff in Hi as ([n x] & <- & Hx).
    apply list_elem_of_In in Hx. now apply elem_of_indexed in Hx as [Hx _].
  - intros Hin. destruct (Obj.arrayIndex (fst e)) as [n|] eqn:Hk.
    + left. apply list_elem_of_In, in_map_iff. exists (n, e).
      split; [reflexivity |]. apply list_elem_of_In.
      now apply elem_of_indexed.
    + right. split; [| exact Hin]. now apply isArrayIndex_false.
Qed.

(** C4 (as amended).  The categorizer lower-cases the description and
    scans the table in the order [for ... in] enumerates it: the
    keywords that are array indices first, by ascending index, then the
    other keywords in insertion order.  The category of the first
    keyword that occurs as a substring of the lower-cased description is
    assigned, and "Uncategorized" when none occurs.  For a table without
    array-index keywords the scan is in insertion order. *)
Theorem categorize_first_match description rules :
  let l := Js.toLowerCase description in
  (forall before k c after,
      Obj.forIn rules = before ++ (k, c) :: after ->
      Js.includes l k = true ->
      (forall e, e ∈ before -> Js.includes l (fst e) = false) ->
      categorize description rules = c)
  /\ ((forall e, e ∈ Obj.forIn rules -> Js.includes l (fst e) = false) ->
      categorize description rules = "Uncategorized"%string)
  /\ (forall k, Js.includes l k = true <-> exists a b, l = a +:+ k +:+ b)
  /\ Obj.forIn rules
     = map snd (Obj.indexed rules)
       ++ filter (fun e => Obj.isArrayIndex (fst e) = false) rules
  /\ Sorted N.le (map fst (Obj.indexed rules))
  /\ (forall n e, (n, e) ∈ Obj.indexed rules
                  <-> e ∈ rules /\ Obj.arrayIndex (fst e) = Some n)
  /\ ((forall e, e ∈ rules -> Obj.isArrayIndex (fst e) = false) ->
      categorize description rules
      = categorizeInsertionOrder description rules).
Proof.
  intros l. unfold categorize. fold l.
  split; [| split; [| split; [| split; [| split; [| split]]]]].
  - intros before k c after -> Hk Hb. now apply firstMatch_hit.
  - apply firstMatch_miss.
  - intros k. apply includes_substring.
  - reflexivity.
  - apply indexed_sorted.
  - apply elem_of_indexed.
  - intros Hn. unfold categorizeInsertionOrder. fold l.
    now rewrite forIn_insertion_order.
Qed.

End StringTheory.

Example categorize_vegas :
  categorize "Vegas trip" [("gas", "Auto")] = "Auto"
  /\ categorize "Groceries" [("gas", "Auto")] = "Uncategorized".
Proof. split; reflexivity. Qed.

Example categorize_order_sensitive :
  categorize "Starbucks Coffee Purchase"
    [("coffee", "Dining"); ("starbucks coffee", "Cafe")] = "Dining"
  /\ categorize "Starbucks Coffee Purchase"
       [("starbucks coffee", "Cafe"); ("coffee", "Dining")] = "Cafe".
Proof. split; reflexivity. Qed.

(** C4, as stated, fails.  The listener receives the rule "check" before
    the rule "1042"; [for ... in] visits "1042" first, so "Check 1042" is
    given the category of "1042", while the first keyword in insertion
    order that occurs in it is "check". *)
Lemma categorize_not_insertion_order :
  chequeTable = [("check", "Misc"); ("1042", "Rent")]
  /\ Obj.forIn chequeTable = [("1042", "Rent"); ("check", "Misc")]
  /\ categorize "Check 1042" chequeTable = "Rent"
  /\ categorizeInsertionOrder "Check 1042" chequeTable = "Misc"
  /\ categorize "Check 1042" chequeTable
     <> categorizeInsertionOrder "Check 1042" chequeTable.
Proof. repeat split; try reflexivity. vm_compute. discriminate. Qed.


(** ** The keyword of the rule learner *)

Section KeywordTheory.

Lemma isWhiteSpace_lowerChar c :
  Js.isWhiteSpace (Js.lowerChar c) = Js.isWhiteSpace c.
Proof. destruct c as [[] [] [] [] [] [] [] []]; reflexivity. Qed.

Lemma toLowerCase_append a b :
  Js.toLowerCase (a +:+ b) = Js.toLowerCase a +:+ Js.toLowerCase b.
Proof.
  induction a as [|c a IH]; [reflexivity |].
  rewrite append_cons. simpl. now rewrite IH.
Qed.

Lemma toLowerCase_join ws :
  Js.toLowerCase (Js.join " " ws) = Js.join " " (map Js.toLowerCase ws).
Proof.
  induction ws as [|w ws IH]; [reflexivity |].
  destruct ws as [|w' ws]; [reflexivity |].
  change (Js.join " " (w :: w' :: ws))
    with (w +:+ " " +:+ Js.join " " (w' :: ws)).
  rewrite !toLowerCase_append, IH. reflexivity.
Qed.

Lemma noWhiteSpace_lower w :
  noWhiteSpace (Js.toLowerCase w) = noWhiteSpace w.
Proof.
  induction w as [|c w IH]; [reflexivity |].
  simpl. now rewrite isWhiteSpace_lowerChar, IH.
Qed.

Lemma isWord_lower w : isWord (Js.toLowerCase w) = isWord w.
Proof.
  unfold isWord. rewrite noWhiteSpace_lower. now destruct w.
Qed.

Lemma isWord_cons c r :
  isWord (String c r) = true ->
  Js.isWhiteSpace c = false /\ noWhiteSpace r = true.
Proof.
  unfold isWord. simpl. intros Hw. apply andb_true_iff in Hw as [Hc Hr].
  now apply negb_true_iff in Hc.
Qed.

Lemma not_space c : Js.isWhiteSpace c = false -> Ascii.eqb c " " = false.
Proof.
  intros Hc. destruct (Ascii.eqb c " ") eqn:He; [| reflexivity].
  apply Ascii.eqb_eq in He. subst c. discriminate Hc.
Qed.

(** [split] on text built from words and single spaces. *)
Lemma split_word_alone w :
  noWhiteSpace w = true -> Js.split " " w = [w].
Proof.
  induction w as [|c w IH]; [reflexivity |].
  simpl. intros Hw. apply andb_true_iff in Hw as [Hc Hr].
  apply negb_true_iff in Hc. rewrite (not_space c Hc). now rewrite IH.
Qed.

Lemma split_word_space w rest :
  noWhiteSpace w = true ->
  Js.split " " (w +:+ " " +:+ rest) = w :: Js.split " " rest.
Proof.
  induction w as [|c w IH]; [reflexivity |].
  cbn [noWhiteSpace]. intros Hw. apply andb_true_iff in Hw as [Hc Hr].
  apply negb_true_iff in Hc. rewrite append_cons. cbn [Js.split].
  rewrite (not_space c Hc). now rewrite IH.
Qed.

Lemma isWord_noWhiteSpace w : isWord w = true -> noWhiteSpace w = true.
Proof. unfold isWord. intros Hw. now apply andb_true_iff in Hw. Qed.

Lemma split_join w ws :
  Forall (fun x => isWord x = true) (w :: ws) ->
  Js.split " " (Js.join " " (w :: ws)) = w :: ws.
Proof.
  revert w. induction ws as [|w' ws IH]; intros w Hall.
  - apply split_word_alone, isWord_noWhiteSpace.
    now inversion Hall.
  - change (Js.join " " (w :: w' :: ws))
      with (w +:+ " " +:+ Js.join " " (w' :: ws)).
    inversion Hall as [|? ? Hw Hrest]; subst.
    rewrite split_word_space by now apply isWord_noWhiteSpace.
    now rewrite IH.
Qed.

(** [words] on the same text. *)
Lemma words_word_alone w : isWord w = true -> Js.words w = [w].
Proof.
  induction w as [|c w IH]; [discriminate |].
  intros Hw. apply isWord_cons in Hw as [Hc Hr].
  cbn [Js.words]. rewrite Hc. destruct w as [|d w]; [reflexivity |].
  assert (Hd : isWord (String d w) = true) by exact Hr.
  destruct (isWord_cons _ _ Hd) as [Hdw _]. rewrite Hdw.
  now rewrite (IH Hd).
Qed.

Lemma words_space rest : Js.words (" " +:+ rest) = Js.words rest.
Proof. reflexivity. Qed.

Lemma words_word_space w rest :
  isWord w = true ->
  Js.words (w +:+ " " +:+ rest) = w :: Js.words rest.
Proof.
  induction w as [|c w IH]; [discriminate |].
  intros Hw. apply isWord_cons in Hw as [Hc Hr].
  rewrite append_cons. cbn [Js.words]. rewrite Hc.
  destruct w as [|d w].
  - rewrite append_nil. reflexivity.
  - assert (Hd : isWord (String d w) = true) by exact Hr.
    destruct (isWord_cons _ _ Hd) as [Hdw _].
    rewrite append_cons, Hdw. rewrite <- append_cons.
    now rewrite (IH Hd).
Qed.

Lemma words_join ws :
  Forall (fun x => isWord x = true) ws -> Js.words (Js.join " " ws) = ws.
Proof.
  induction ws as [|w ws IH]; intros Hall; [reflexivity |].
  inversion Hall as [|? ? Hw Hrest]; subst.
  destruct ws as [|w' ws].
  - now apply words_word_alone.
  - change (Js.join " " (w :: w' :: ws))
      with (w +:+ " " +:+ Js.join " " (w' :: ws)).
    rewrite words_word_space by exact Hw. now rewrite IH.
Qed.

Lemma Forall_isWord_lower ws :
  Forall (fun x => isWord x = true) ws ->
  Forall (fun x => isWord x = true) (map Js.toLowerCase ws).
Proof.
  induction 1 as [|w ws Hw _ IH]; simpl; constructor; [| exact IH].
  now rewrite isWord_lower.
Qed.

(** X20.  When the description consists of words separated by single
    spaces (no other white space, no leading, trailing or repeated
    space), the derived keyword is made of its first two
    white-space-separated tokens in lower case, joined by one space. *)
Theorem keyword_of_single_spaced ws :
  Forall (fun w => isWord w = true) ws ->
  keywordCandidate (Js.join " " ws) = keywordOfWords (Js.join " " ws)
  /\ keywordCandidate (Js.join " " ws)
     = Js.join " " (take 2 (map Js.toLowerCase ws)).
Proof.
  intros Hall. unfold keywordCandidate, keywordOfWords.
  rewrite toLowerCase_join.
  pose proof (Forall_isWord_lower ws Hall) as Hl.
  rewrite (words_join _ Hl).
  destruct (map Js.toLowerCase ws) as [|w l] eqn:Hm; [now split |].
  now rewrite (split_join w l Hl).
Qed.

End KeywordTheory.

Example keyword_shell :
  keywordCandidate "Shell Gas Station" = "shell gas"
  /\ keywordCandidate "Netflix" = "netflix".
Proof. split; reflexivity. Qed.

Lemma keyword_of_single_spaced_witness :
  keywordCandidate (Js.join " " ["Shell"; "Gas"; "Station"])
  = keywordOfWords (Js.join " " ["Shell"; "Gas"; "Station"]).
Proof.
  apply (keyword_of_single_spaced ["Shell"; "Gas"; "Station"]).
  repeat constructor.
Defined.

(** C6: the program at the failing input.  The source's comment asks for
    the first two words.  With two spaces after the first word,
    [split(' ')] yields an empty second piece: the keyword is "shell " and
    not the first two white-space-separated tokens "shell gas". *)
Lemma keyword_double_space :
  keywordCandidate "Shell  Gas Station" = "shell "
  /\ keywordOfWords "Shell  Gas Station" = "shell gas"
  /\ keywordCandidate "Shell  Gas Station"
     <> keywordOfWords "Shell  Gas Station".
Proof. repeat split; try reflexivity. vm_compute. discriminate. Qed.


(** ** The row normalizer and the category handlers *)

Section HandlerTheory.

Context `{Number} `{DateFns}.

Lemma truthy_false s : Js.truthy s = false <-> s = ""%string.
Proof.
  unfold Js.truthy. rewrite negb_false_iff. apply String.eqb_eq.
Qed.

Lemma truthy_true s : Js.truthy s = true <-> s <> ""%string.
Proof.
  unfold Js.truthy. rewrite negb_true_iff. apply String.eqb_neq.
Qed.

(** The case-insensitive test of [handleAddCategory]. *)
Lemma nameTaken_spec name (cats : Firestore.collection categoryDoc) :
  existsb (fun cat => (Js.toLowerCase (catName (snd cat))
                       =? Js.toLowerCase name)%string) cats = true
  <-> exists cat, cat ∈ cats
        /\ Js.toLowerCase (catName (snd cat)) = Js.toLowerCase name.
Proof.
  rewrite existsb_exists. split; intros (cat & H1 & H2); exists cat.
  - split; [now apply list_elem_of_In | now apply String.eqb_eq].
  - split; [now apply list_elem_of_In | now apply String.eqb_eq].
Qed.

Lemma addCategory_changes data s :
  withCategories (Firestore.addDoc (categoriesCol s) data) s <> s.
Proof.
  intros Heq. apply (f_equal categoriesCol) in Heq. cbn in Heq.
  apply (f_equal length) in Heq. unfold Firestore.addDoc in Heq.
  rewrite length_app in Heq. cbn in Heq. lia.
Qed.

(** C8.  For a signed-in component whose category list is the stored
    one: adding a category leaves the store as it is (no write, one of
    the two refusal messages) exactly when the name is blank after
    trimming or its trimmed form equals a stored category name up to
    letter case; otherwise one category with the trimmed name is
    added. *)
Theorem add_category_refused_exactly st s u :
  session st = Some u -> categories st = categoriesCol s ->
  (refused (newCategoryName st) (categoriesCol s)
   -> snd (handleAddCategory st s) = s
      /\ (message (fst (handleAddCategory st s))
            = "Category name cannot be empty."%string
          \/ message (fst (handleAddCategory st s))
            = "Category already exists."%string))
  /\ (~ refused (newCategoryName st) (categoriesCol s)
      -> snd (handleAddCategory st s)
         = withCategories
             (Firestore.addDoc (categoriesCol s)
                {| catName := Js.trim (newCategoryName st);
                   catUserId := u |}) s)
  /\ (snd (handleAddCategory st s) = s
      <-> refused (newCategoryName st) (categoriesCol s)).
Proof.
  intros Hs Hsync. unfold handleAddCategory, refused.
  rewrite Hs, Hsync.
  destruct (Js.truthy (Js.trim (newCategoryName st))) eqn:Ht.
  - apply truthy_true in Ht.
    destruct (existsb _ (categoriesCol s)) eqn:He.
    + apply nameTaken_spec in He. cbn.
      split; [auto |]. split; [| tauto].
      intros Hn. exfalso. apply Hn. now right.
    + assert (Hno : ~ exists cat, cat ∈ categoriesCol s
                /\ Js.toLowerCase (catName (snd cat))
                   = Js.toLowerCase (Js.trim (newCategoryName st))).
      { intros Hex. apply nameTaken_spec in Hex. congruence. }
      cbn [snd fst]. split; [intros [? | ?]; contradiction |].
      split; [reflexivity |]. split; [| intros [? | ?]; contradiction].
      intros Heq. exfalso. now apply addCategory_changes in Heq.
  - apply truthy_false in Ht. cbn. split; [auto |].
    split; [| tauto]. intros Hn. exfalso. apply Hn. now left.
Qed.

(** *** Row normalizer *)

Lemma usable_debit r d :
  r !! "Debit"%string = Some d -> Js.truthy d = true ->
  isNaN (parseFloat d) = false -> isZero (parseFloat d) = false ->
  usable r "Debit" = true /\ cell r "Debit" = d.
Proof.
  intros Hd Hne Hn Hz. unfold usable, cell, numTruthy.
  now rewrite Hd, Hn, Hz, Hne.
Qed.

(** C3 (as amended).  For every row whose [Debit] cell is non-empty and
    parses to a number other than zero, the normalized amount is the
    negation of that number, whatever the row's other columns hold. *)
Theorem debit_negated r d :
  r !! "Debit"%string = Some d -> Js.truthy d = true ->
  isNaN (parseFloat d) = false -> isZero (parseFloat d) = false ->
  resolveAmount r = neg (parseFloat d)
  /\ forall rules tx,
       normalizeRow rules r = Some tx -> amount tx = neg (parseFloat d).
Proof.
  intros Hd Hne Hn Hz.
  destruct (usable_debit r d Hd Hne Hn Hz) as [Hu Hc].
  assert (Hr : resolveAmount r = neg (parseFloat d)).
  { unfold resolveAmount. now rewrite Hu, Hc. }
  split; [exact Hr |].
  intros rules tx. unfold normalizeRow. rewrite Hr, isNaN_neg, Hn.
  destruct (if Js.truthy _ then _ else _); [| discriminate].
  intros Heq. injection Heq as <-. reflexivity.
Qed.


(** A row whose date cannot be read ends the callback before any write. *)
Lemma mapRows_throws rules data r :
  r ∈ data -> Js.truthy (rawDate r) = true ->
  formatParseISO (rawDate r) = None ->
  mapRows rules data = None.
Proof.
  intros Hin Ht Hf. induction data as [|x data IH]; [inversion Hin |].
  simpl. apply elem_of_cons in Hin as [<- | Hin].
  - unfold normalizeRow. now rewrite Ht, Hf.
  - destruct (normalizeRow rules x); [| reflexivity].
    now rewrite (IH Hin).
Qed.

Lemma complete_throws data r st s :
  r ∈ data -> Js.truthy (rawDate r) = true ->
  formatParseISO (rawDate r) = None ->
  complete data st s = (st, s).
Proof.
  intros Hin Ht Hf. unfold complete, parsedTransactions.
  now rewrite (mapRows_throws (rules st) data r Hin Ht Hf).
Qed.

End HandlerTheory.

Example parseFloat_examples :
  Dec.toString (Dec.parseFloat "42.17") = "42.17"
  /\ Dec.toString (Dec.neg (Dec.parseFloat "42.17")) = "-42.17"
  /\ Dec.toString (Dec.parseFloat "  1,234.50") = "1"
  /\ Dec.toString (Dec.parseFloat (Js.stripNonNumeric "$1,234.50"))
     = "1234.5"
  /\ Dec.parseFloat "abc" = Dec.NaN
  /\ Dec.parseFloat "." = Dec.NaN
  /\ Dec.toString (Dec.parseFloat "-0") = "0"
  /\ Dec.toString (Dec.parseFloat "1e21") = "1e+21"
  /\ Dec.toString (Dec.parseFloat "0.000001") = "0.000001"
  /\ Dec.toString (Dec.parseFloat "1.5e-7") = "1.5e-7"
  /\ Dec.toString (Dec.parseFloat "100") = "100"
  /\ Dec.toString (Dec.parseFloat "-Infinity") = "-Infinity".
Proof. vm_compute. repeat split. Qed.

Example formatParseISO_examples :
  IsoCalendar.formatParseISO "2024-02-29" = Some "2024-02-29"
  /\ IsoCalendar.formatParseISO "2023-02-29" = None
  /\ IsoCalendar.formatParseISO "01/05/2024" = None.
Proof. repeat split. Qed.

Example normalize_whole_foods :
  option_map (fun tx => (date tx, description tx, numToString (amount tx)))
    (normalizeRow [] wholeFoods)
  = Some ("2024-01-05", "Whole Foods Market", "-42.17").
Proof. reflexivity. Qed.

Lemma add_category_refused_witness :
  snd (handleAddCategory (typing " groceries " groceriesStore) groceriesStore)
  = groceriesStore
  <-> refused " groceries " (categoriesCol groceriesStore).
Proof.
  apply (add_category_refused_exactly
           (typing " groceries " groceriesStore) groceriesStore "u1");
    reflexivity.
Defined.

Example add_category_examples :
  snd (handleAddCategory (typing " groceries " groceriesStore) groceriesStore)
  = groceriesStore
  /\ snd (handleAddCategory (typing "   " groceriesStore) groceriesStore)
     = groceriesStore
  /\ categoriesCol
       (snd (handleAddCategory (typing " Rent " groceriesStore)
               groceriesStore))
     = [(1, {| catName := "Groceries"; catUserId := "u1" |});
        (2, {| catName := "Rent"; catUserId := "u1" |})].
Proof. repeat split. Qed.

Lemma debit_negated_witness :
  resolveAmount wholeFoods = neg (parseFloat "42.17").
Proof.
  apply (debit_negated wholeFoods "42.17"); reflexivity.
Defined.

(** C3, as stated, fails.  The [Debit] cell "0" is non-empty and parses
    to a number, but the amount is taken from the [Amount] column: 5, not
    the negation of 0. *)
Lemma zero_debit_not_negated :
  zeroDebit !! "Debit"%string = Some "0"%string
  /\ isNaN (parseFloat "0") = false
  /\ resolveAmount zeroDebit = parseFloat "5"
  /\ resolveAmount zeroDebit <> neg (parseFloat "0")
  /\ option_map (fun tx => numToString (amount tx))
       (normalizeRow [] zeroDebit) = Some "5"%string.
Proof. repeat split; try reflexivity. vm_compute. discriminate. Qed.



(** C5: the program at the failing input.  The first row is well formed
    and is written when imported alone.  With a second row whose date is
    not ISO text, [format] throws inside the [map]: nothing is written,
    not even the first row, and the component is left loading with the
    message 'Parsing CSV...'. *)
Theorem unreadable_date_aborts_import :
  shown (snd (parseCsv (signedIn "u1" [] (Some [coffee])) emptyStore))
  = [("2024-01-05", "Coffee", "-3.5")]
  /\ formatParseISO (rawDate slashDate) = None
  /\ snd (parseCsv (signedIn "u1" [] (Some [coffee; slashDate])) emptyStore)
     = emptyStore
  /\ loading (fst (parseCsv (signedIn "u1" [] (Some [coffee; slashDate]))
                     emptyStore)) = true
  /\ message (fst (parseCsv (signedIn "u1" [] (Some [coffee; slashDate]))
                     emptyStore)) = "Parsing CSV..."%string.
Proof. repeat split. Qed.


(** ** The rule learner and the rules collection *)

Section StoreTheory.

Lemma freshId_above {A} (c : Firestore.collection A) d :
  d ∈ c -> fst d < Firestore.freshId c.
Proof.
  unfold Firestore.freshId. induction c as [|e c IH]; intros Hd.
  - inversion Hd.
  - apply elem_of_cons in Hd as [-> | Hd]; simpl; [lia |].
    specialize (IH Hd). lia.
Qed.

Lemma freshId_fresh {A} (c : Firestore.collection A) :
  Firestore.freshId c ∉ map fst c.
Proof.
  intros Hin. apply list_elem_of_In, in_map_iff in Hin as (d & Hd & Hin).
  apply list_elem_of_In, freshId_above in Hin. lia.
Qed.

Lemma addDoc_NoDup {A} (c : Firestore.collection A) data :
  NoDup (map fst c) -> NoDup (map fst (Firestore.addDoc c data)).
Proof.
  intros Hnd. unfold Firestore.addDoc. rewrite map_app. simpl.
  apply NoDup_app. split; [exact Hnd |]. split.
  - intros x Hx Hx'. apply list_elem_of_singleton in Hx'. subst x.
    now apply freshId_fresh in Hx.
  - apply NoDup_singleton.
Qed.

Lemma exists_true {A} id (c : Firestore.collection A) d :
  d ∈ c -> fst d = id -> Firestore.exists_ id c = true.
Proof.
  intros Hd Hid. unfold Firestore.exists_. apply existsb_exists.
  exists d. split; [now apply list_elem_of_In | now apply Nat.eqb_eq].
Qed.

End StoreTheory.

Section RuleTheory.

Context `{Number} `{DateFns}.

Lemma rulesFor_cons u k e col :
  rulesFor u k (e :: col)
  = if ruleMatches u k (snd e) then e :: rulesFor u k col
    else rulesFor u k col.
Proof.
  unfold rulesFor, Firestore.getDocs. rewrite filter_cons.
  unfold ruleMatches. destruct (_ && _); now case_decide.
Qed.

Lemma rulesFor_app u k c1 c2 :
  rulesFor u k (c1 ++ c2) = rulesFor u k c1 ++ rulesFor u k c2.
Proof. unfold rulesFor, Firestore.getDocs. apply filter_app. Qed.

Lemma elem_of_rulesFor u k col e :
  e ∈ rulesFor u k col
  <-> e ∈ col /\ ruleKeyword (snd e) = k /\ ruleUserId (snd e) = u.
Proof.
  unfold rulesFor, Firestore.getDocs, ruleMatches.
  rewrite list_elem_of_filter, andb_true_iff, !String.eqb_eq. tauto.
Qed.

(** Changing categories document by document keeps every query result's
    size. *)
Lemma rulesFor_update u k (g : Firestore.docId * ruleDoc -> string) col :
  rulesFor u k
    (map (fun d => (fst d, setRuleCategory (g d) (snd d))) col)
  = map (fun d => (fst d, setRuleCategory (g d) (snd d))) (rulesFor u k col).
Proof.
  induction col as [|e col IH]; [reflexivity |].
  cbn [map]. rewrite !rulesFor_cons. cbn [snd].
  unfold ruleMatches at 1. cbn [setRuleCategory ruleKeyword ruleUserId].
  fold (ruleMatches u k (snd e)).
  destruct (ruleMatches u k (snd e)); cbn [map]; now rewrite IH.
Qed.

Lemma updated_shape id c d :
  updated id c d
  = (fst d, setRuleCategory
              (if Nat.eqb (fst d) id then c else ruleCategory (snd d))
              (snd d)).
Proof.
  unfold updated. destruct (Nat.eqb (fst d) id); [reflexivity |].
  now destruct d as [i [? ? ?]].
Qed.

Lemma map_updated id c col :
  map (updated id c) col
  = map (fun d => (fst d,
           setRuleCategory
             (if Nat.eqb (fst d) id then c else ruleCategory (snd d))
             (snd d))) col.
Proof. apply map_ext. intros d. apply updated_shape. Qed.

(** The two outcomes of the learner's query. *)
Lemma upsertRule_cases u k c col :
  (rulesFor u k col = []
   /\ upsertRule u k c col
      = Firestore.addDoc col
          {| ruleKeyword := k; ruleCategory := c; ruleUserId := u |})
  \/ (exists id d rest,
        rulesFor u k col = (id, d) :: rest
        /\ upsertRule u k c col = map (updated id c) col).
Proof.
  unfold upsertRule. fold (rulesFor u k col).
  destruct (rulesFor u k col) as [|[id d] rest] eqn:Hq.
  - now left.
  - right. exists id, d, rest. split; [reflexivity |].
    unfold Firestore.updateDoc.
    assert (Hin : (id, d) ∈ col).
    { apply (proj1 (elem_of_rulesFor u k col (id, d))).
      rewrite Hq. left. }
    now rewrite (exists_true id col (id, d) Hin eq_refl).
Qed.

Lemma upsertRule_unique u k c col :
  rulesUnique col -> rulesUnique (upsertRule u k c col).
Proof.
  intros [Hnd Hone].
  destruct (upsertRule_cases u k c col)
    as [[Hq ->] | (id & d & rest & Hq & ->)].
  - split; [now apply addDoc_NoDup |].
    intros u' k'. unfold Firestore.addDoc.
    rewrite rulesFor_app, length_app, rulesFor_cons. cbn [snd].
    destruct (ruleMatches u' k' _) eqn:Hm; cbn.
    + apply andb_true_iff in Hm as [Hk Hu]. cbn in Hk, Hu.
      apply String.eqb_eq in Hk, Hu. subst k' u'. now rewrite Hq.
    + specialize (Hone u' k'). lia.
  - rewrite map_updated. split.
    + now rewrite map_map, (map_ext _ fst) by reflexivity.
    + intros u' k'. rewrite rulesFor_update, length_map. apply Hone.
Qed.

Lemma learnRule_unique st u id c col :
  rulesUnique col -> rulesUnique (learnRule st u id c col).
Proof.
  intros Hu. unfold learnRule.
  destruct (find _ _) as [[? tx]|]; [| exact Hu].
  destruct (_ && _); [| exact Hu].
  destruct (_ && _); [| exact Hu].
  now apply upsertRule_unique.
Qed.

Lemma rulesCol_parseCsv st s : rulesCol (snd (parseCsv st s)) = rulesCol s.
Proof.
  unfold parseCsv. destruct (file st); [| reflexivity].
  destruct (negb (papa st)); [reflexivity |].
  unfold complete. destruct (parsedTransactions _ _); [| reflexivity].
  destruct (session _); [| reflexivity].
  now destruct (saveAll _ _ _).
Qed.

Lemma rulesCol_addCategory st s :
  rulesCol (snd (handleAddCategory st s)) = rulesCol s.
Proof.
  unfold handleAddCategory.
  destruct (if Js.truthy _ then _ else _); [| reflexivity].
  now destruct (existsb _ _).
Qed.

Lemma rulesCol_deleteCategory id st s :
  rulesCol (snd (handleDeleteCategory id st s)) = rulesCol s.
Proof. unfold handleDeleteCategory. now destruct (session st). Qed.

Lemma handleCategoryChange_unique id c st s :
  rulesUnique (rulesCol s) ->
  rulesUnique (rulesCol (snd (handleCategoryChange id c st s))).
Proof.
  intros Hu. unfold handleCategoryChange.
  destruct (session st); [| exact Hu].
  destruct (Firestore.updateDoc _ _ _); [| exact Hu].
  cbn. now apply learnRule_unique.
Qed.

Lemma reachable_unique s : reachable s -> rulesUnique (rulesCol s).
Proof.
  induction 1 as [| st s _ IH | id c st s _ IH | st s _ IH | id st s _ IH].
  - split; [constructor | intros; cbn; lia].
  - now rewrite rulesCol_parseCsv.
  - now apply handleCategoryChange_unique.
  - now rewrite rulesCol_addCategory.
  - now rewrite rulesCol_deleteCategory.
Qed.




End RuleTheory.

Example learner_adds_then_updates :
  rulesCol learnedStore
  = [(1, {| ruleKeyword := "shell gas"; ruleCategory := "Auto";
            ruleUserId := "u1" |})]
  /\ rulesCol
       (snd (handleCategoryChange 1 "Fuel"
               (sync (signedIn "u1" [] None) learnedStore) learnedStore))
     = [(1, {| ruleKeyword := "shell gas"; ruleCategory := "Fuel";
               ruleUserId := "u1" |})].
Proof. split; reflexivity. Qed.



(** ** The import: duplicate filter and batches *)

Section ImportTheory.

Context `{Number} `{DateFns}.

Lemma elem_of_map {A B} (f : A -> B) (l : list A) (y : B) :
  y ∈ map f l <-> exists x, f x = y /\ x ∈ l.
Proof.
  rewrite list_elem_of_In, in_map_iff.
  split; intros (x & Hx & Hin); exists x; split; auto;
    now apply list_elem_of_In.
Qed.

Lemma elem_of_uniqueFrom seen l v :
  v ∈ uniqueFrom seen l <-> v ∈ l /\ v ∉ seen.
Proof.
  revert seen. induction l as [|a l IH]; intros seen; simpl.
  - split; [intros Hv; inversion Hv | intros [Hv _]; inversion Hv].
  - case_bool_decide as Ha.
    + rewrite IH, elem_of_cons. split.
      * intros [Hin Hns]. auto.
      * intros [[-> | Hin] Hns]; [contradiction | auto].
    + rewrite elem_of_cons, IH, !elem_of_cons, elem_of_app.
      rewrite list_elem_of_singleton.
      split.
      * intros [-> | [Hin Hns]]; [auto |].
        split; [auto |]. intros Hs. apply Hns. auto.
      * intros [[-> | Hin] Hns]; [auto |].
        destruct (decide (v = a)) as [-> | Hne]; [auto |].
        right. split; [auto |]. intros [Hs | Hs]; auto.
Qed.

Lemma elem_of_unique l v : v ∈ unique l <-> v ∈ l.
Proof.
  unfold unique. rewrite elem_of_uniqueFrom.
  split; [tauto |]. intros Hv. split; [auto |]. intros Hn. inversion Hn.
Qed.

(** What the set of one batch holds. *)
Lemma elem_of_existingTxSet u batch col x :
  x ∈ existingTxSet u batch col <->
  exists d, d ∈ col /\ txDate (snd d) ∈ map date batch
            /\ txUserId (snd d) = u /\ docIdentifier (snd d) = x.
Proof.
  unfold existingTxSet, Firestore.getDocs.
  rewrite elem_of_list_to_set, elem_of_map.
  split.
  - intros (d & Hid & Hin). apply list_elem_of_filter in Hin as [Hp Hin].
    apply andb_true_iff in Hp as [Hd Hu].
    apply bool_decide_eq_true in Hd. rewrite elem_of_unique in Hd.
    apply String.eqb_eq in Hu. exists d. repeat split; assumption.
  - intros (d & Hin & Hd & Hu & Hid). exists d. split; [exact Hid |].
    apply list_elem_of_filter. split; [| auto].
    apply andb_true_iff. split.
    + apply bool_decide_eq_true. now apply elem_of_unique.
    + now apply String.eqb_eq.
Qed.

Lemma existingTxSet_dates u b1 b2 col :
  map date b1 = map date b2 ->
  existingTxSet u b1 col = existingTxSet u b2 col.
Proof. unfold existingTxSet. now intros ->. Qed.

Lemma existingTxSet_mono u batch col extra x :
  x ∈ existingTxSet u batch col -> x ∈ existingTxSet u batch (col ++ extra).
Proof.
  rewrite !elem_of_existingTxSet. intros (d & Hin & Hrest).
  exists d. split; [| auto]. apply elem_of_app. auto.
Qed.

Lemma docIdentifier_withUser tx u :
  docIdentifier (withUser tx u) = txIdentifier tx.
Proof. reflexivity. Qed.

(** A batch whose candidates are all in the set writes nothing. *)
Lemma writeBatch_all_known u existing batch acc :
  (forall tx, tx ∈ batch -> txIdentifier tx ∈ existing) ->
  writeBatch u existing batch acc = acc.
Proof.
  revert acc. induction batch as [|tx batch IH]; intros acc Hall; simpl.
  - reflexivity.
  - rewrite bool_decide_eq_true_2 by (apply Hall; left).
    apply IH. intros t Ht. apply Hall. now right.
Qed.

(** A batch only appends, counts what it appends, and every candidate
    it did not find in the set is stored afterwards. *)
Lemma writeBatch_spec u existing batch col n :
  exists extra,
    writeBatch u existing batch (col, n) = (col ++ extra, n + length extra)
    /\ (forall d, d ∈ extra -> exists tx, tx ∈ batch /\ snd d = withUser tx u)
    /\ (forall tx, tx ∈ batch ->
          txIdentifier tx ∈ existing
          \/ exists d, d ∈ extra /\ snd d = withUser tx u).
Proof.
  revert col n. induction batch as [|tx batch IH]; intros col n; simpl.
  - exists []. rewrite app_nil_r, Nat.add_0_r.
    split; [reflexivity |]. split; intros ? Hx; inversion Hx.
  - case_bool_decide as Hk.
    + destruct (IH col n) as (extra & Heq & Hfrom & Hall).
      exists extra. split; [exact Heq |]. split.
      * intros d Hd. destruct (Hfrom d Hd) as (t & Ht & Hs).
        exists t. split; [now right | exact Hs].
      * intros t Ht. apply elem_of_cons in Ht as [-> | Ht]; auto.
    + unfold Firestore.addDoc.
      destruct (IH (col ++ [(Firestore.freshId col, withUser tx u)]) (S n))
        as (extra & Heq & Hfrom & Hall).
      exists ((Firestore.freshId col, withUser tx u) :: extra).
      split; [| split].
      * rewrite Heq. rewrite <- app_assoc. simpl. f_equal. lia.
      * intros d Hd. apply elem_of_cons in Hd as [-> | Hd].
        -- exists tx. split; [left | reflexivity].
        -- destruct (Hfrom d Hd) as (t & Ht & Hs).
           exists t. split; [now right | exact Hs].
      * intros t Ht. apply elem_of_cons in Ht as [-> | Ht].
        -- right. eexists. split; [left | reflexivity].
        -- destruct (Hall t Ht) as [Hin | (d & Hd & Hs)]; [auto |].
           right. exists d. split; [now right | exact Hs].
Qed.

Lemma elem_of_map_date (tx : transaction) batch :
  tx ∈ batch -> date tx ∈ map date batch.
Proof. intros Hin. apply elem_of_map. exists tx. auto. Qed.

(** After a batch is processed, the query of that batch finds the
    identity of each of its candidates. *)
Lemma processBatch_spec u txs col n i :
  exists extra,
    processBatch u txs (col, n) i = (col ++ extra, n + length extra)
    /\ forall tx, tx ∈ batchAt txs i ->
         txIdentifier tx ∈ existingTxSet u (batchAt txs i) (col ++ extra).
Proof.
  unfold processBatch. simpl.
  destruct (writeBatch_spec u (existingTxSet u (batchAt txs i) col)
              (batchAt txs i) col n) as (extra & Heq & _ & Hall).
  exists extra. split; [exact Heq |].
  intros tx Htx. destruct (Hall tx Htx) as [Hin | (d & Hd & Hs)].
  - now apply existingTxSet_mono.
  - apply elem_of_existingTxSet. exists d.
    split; [apply elem_of_app; auto |]. rewrite Hs. simpl.
    split; [now apply elem_of_map_date |]. split; reflexivity.
Qed.

(** The first run: the collection only grows, and at the end every
    batch finds all its candidates. *)
Lemma fold_processBatch_spec u txs starts col n :
  exists extra,
    fold_left (processBatch u txs) starts (col, n)
    = (col ++ extra, n + length extra)
    /\ forall i tx, i ∈ starts -> tx ∈ batchAt txs i ->
         txIdentifier tx ∈ existingTxSet u (batchAt txs i) (col ++ extra).
Proof.
  revert col n.
  induction starts as [|i starts IH]; intros col n; cbn [fold_left].
  - exists []. rewrite app_nil_r, Nat.add_0_r.
    split; [reflexivity |]. intros ? ? Hi. inversion Hi.
  - destruct (processBatch_spec u txs col n i) as (e1 & Heq1 & Hall1).
    rewrite Heq1.
    destruct (IH (col ++ e1) (n + length e1)) as (e2 & Heq2 & Hall2).
    exists (e1 ++ e2). split.
    { etrans; [exact Heq2 |]. rewrite length_app, <- app_assoc.
      f_equal. lia. }
    intros j tx Hj Htx. apply elem_of_cons in Hj as [-> | Hj].
    + rewrite app_assoc. apply existingTxSet_mono. now apply Hall1.
    + rewrite app_assoc. now apply Hall2.
Qed.

(** A run in which every batch finds all its candidates writes nothing. *)
Lemma fold_processBatch_known u txs starts col n :
  (forall i tx, i ∈ starts -> tx ∈ batchAt txs i ->
     txIdentifier tx ∈ existingTxSet u (batchAt txs i) col) ->
  fold_left (processBatch u txs) starts (col, n) = (col, n).
Proof.
  induction starts as [|i starts IH]; intros Hall; cbn [fold_left].
  - reflexivity.
  - unfold processBatch at 2. cbn [fst].
    rewrite writeBatch_all_known.
    + apply IH. intros j tx Hj. apply Hall. now right.
    + intros tx. apply Hall. left.
Qed.

(** The set of a batch is the one built before its writes: a candidate
    that is not in it is written as often as it occurs in the batch. *)
Lemma writeBatch_twice u existing tx col n :
  txIdentifier tx ∉ existing ->
  writeBatch u existing [tx; tx] (col, n)
  = (Firestore.addDoc (Firestore.addDoc col (withUser tx u))
       (withUser tx u), S (S n)).
Proof.
  intros Hn. cbn [writeBatch]. now rewrite !bool_decide_eq_false_2.
Qed.

(** The batches are the consecutive runs of [batchSize] candidates. *)
Lemma batches_upto (txs : list transaction) k :
  concat (map (batchAt txs) (map (fun b => b * batchSize) (seq 0 k)))
  = take (k * batchSize) txs.
Proof.
  induction k as [|k IH]; [reflexivity |].
  rewrite seq_S, !map_app, concat_app, IH. cbn [map concat].
  rewrite app_nil_r. unfold batchAt. cbn [Nat.add].
  rewrite take_take_drop. f_equal. lia.
Qed.

Lemma batches_cover (txs : list transaction) :
  concat (map (batchAt txs) (batchStarts (length txs))) = txs.
Proof.
  unfold batchStarts. rewrite batches_upto. apply take_ge.
  unfold batchSize.
  pose proof (Nat.div_mod_eq (length txs + (50 - 1)) 50) as Hd.
  pose proof (Nat.mod_upper_bound (length txs + (50 - 1)) 50) as Hm.
  lia.
Qed.

(** *** The same file read with two rule tables *)

Lemma sameTriple_identifier a b :
  sameTriple a b -> txIdentifier a = txIdentifier b.
Proof. intros (Hd & He & Ha). unfold txIdentifier. now rewrite Hd, He, Ha. Qed.

Lemma sameTriple_valid a b : sameTriple a b -> valid a = valid b.
Proof. intros (Hd & He & Ha). unfold valid. now rewrite He, Ha. Qed.

Lemma normalizeRow_rules rules1 rules2 r :
  match normalizeRow rules1 r, normalizeRow rules2 r with
  | Some a, Some b => sameTriple a b
  | None, None => True
  | _, _ => False
  end.
Proof.
  unfold normalizeRow.
  destruct (if Js.truthy (rawDate r) then formatParseISO (rawDate r)
            else Some ""%string); [| exact I].
  repeat split.
Qed.

Lemma mapRows_rules rules1 rules2 data :
  match mapRows rules1 data, mapRows rules2 data with
  | Some l1, Some l2 => Forall2 sameTriple l1 l2
  | None, None => True
  | _, _ => False
  end.
Proof.
  induction data as [|r data IH]; simpl.
  - constructor.
  - pose proof (normalizeRow_rules rules1 rules2 r) as Hr.
    destruct (normalizeRow rules1 r), (normalizeRow rules2 r);
      try contradiction; [| exact I].
    destruct (mapRows rules1 data), (mapRows rules2 data);
      try contradiction; [| exact I].
    now constructor.
Qed.

Lemma Forall2_filter_valid l1 l2 :
  Forall2 sameTriple l1 l2 ->
  Forall2 sameTriple (List.filter valid l1) (List.filter valid l2).
Proof.
  induction 1 as [|a b l1 l2 Hab _ IH]; simpl.
  - constructor.
  - rewrite (sameTriple_valid a b Hab).
    destruct (valid b); [now constructor | exact IH].
Qed.

Lemma parsedTransactions_rules rules1 rules2 data :
  match parsedTransactions rules1 data, parsedTransactions rules2 data with
  | Some l1, Some l2 => Forall2 sameTriple l1 l2
  | None, None => True
  | _, _ => False
  end.
Proof.
  unfold parsedTransactions.
  pose proof (mapRows_rules rules1 rules2 data) as Hm.
  destruct (mapRows rules1 data), (mapRows rules2 data);
    try contradiction; [| exact I].
  now apply Forall2_filter_valid.
Qed.

Lemma Forall2_sameTriple_dates l1 l2 :
  Forall2 sameTriple l1 l2 -> map date l1 = map date l2.
Proof.
  induction 1 as [|a b l1 l2 (Hd & _) _ IH]; simpl; [reflexivity |].
  now rewrite Hd, IH.
Qed.

Lemma Forall2_batchAt l1 l2 i :
  Forall2 sameTriple l1 l2 ->
  Forall2 sameTriple (batchAt l1 i) (batchAt l2 i).
Proof.
  intros Hl. unfold batchAt. now apply Forall2_take, Forall2_drop.
Qed.

(** The loop over the file, run again on what the first run left. *)
Lemma saveAll_again u txs1 txs2 col :
  Forall2 sameTriple txs1 txs2 ->
  saveAll u txs2 (fst (saveAll u txs1 col)) = (fst (saveAll u txs1 col), 0).
Proof.
  intros Hl. unfold saveAll.
  destruct (fold_processBatch_spec u txs1 (batchStarts (length txs1)) col 0)
    as (extra & Heq & Hall).
  rewrite Heq. cbn [fst].
  rewrite <- (Forall2_length _ _ _ Hl).
  apply fold_processBatch_known.
  intros i tx2 Hi Htx2.
  pose proof (Forall2_batchAt txs1 txs2 i Hl) as Hb.
  rewrite <- (existingTxSet_dates u _ _ (col ++ extra)
                (Forall2_sameTriple_dates _ _ Hb)).
  apply list_elem_of_lookup in Htx2 as [j Hj].
  destruct (Forall2_lookup_r _ _ _ _ _ Hb Hj) as (tx1 & Hj1 & Hsame).
  rewrite <- (sameTriple_identifier _ _ Hsame).
  apply (Hall i tx1 Hi). apply list_elem_of_lookup. now exists j.
Qed.

(** The callback run again, on the store the first run left. *)
Lemma complete_again data st st' s :
  session st' = session st ->
  snd (complete data st' (snd (complete data st s)))
  = snd (complete data st s)
  /\ forall u txs,
       session st = Some u ->
       parsedTransactions (rules st') data = Some txs ->
       message (fst (complete data st' (snd (complete data st s))))
       = "Successfully parsed and added 0 new transactions."%string.
Proof.
  intros Hs. unfold complete.
  pose proof (parsedTransactions_rules (rules st) (rules st') data) as Hp.
  destruct (parsedTransactions (rules st) data) as [txs1|],
           (parsedTransactions (rules st') data) as [txs2|];
    try contradiction.
  - rewrite Hs. destruct (session st) as [u|].
    + pose proof (saveAll_again u txs1 txs2 (transactionsCol s) Hp) as Ha.
      destruct (saveAll u txs1 (transactionsCol s)) as [col1 n1].
      cbn [fst snd transactionsCol withTransactions] in *.
      rewrite Ha. cbn. split; [reflexivity |]. intros; reflexivity.
    + cbn. split; [reflexivity |]. intros ? ? Hu. discriminate Hu.
  - cbn. split; [reflexivity |]. intros ? ? _ Hn. discriminate Hn.
Qed.

(** C1.  For every file, store and signed-in state: when [parseCsv] is
    run on the file and then again on the same file by the same owner,
    against the store the first run left, the second run leaves the
    store as it is; and when it runs to its end, it reports 0 new
    transactions.  The rule table may differ between the runs. *)
Theorem import_twice_writes_nothing st st' s :
  file st' = file st -> session st' = session st -> papa st' = papa st ->
  snd (parseCsv st' (snd (parseCsv st s))) = snd (parseCsv st s)
  /\ forall data u txs,
       file st = Some data -> papa st = true -> session st = Some u ->
       parsedTransactions (rules st') data = Some txs ->
       message (fst (parseCsv st' (snd (parseCsv st s))))
       = "Successfully parsed and added 0 new transactions."%string.
Proof.
  intros Hf Hs Hp. unfold parseCsv. rewrite Hf, Hp.
  destruct (file st) as [data|].
  - destruct (papa st).
    + cbn [negb].
      destruct (complete_again data
                  (setMessage "Parsing CSV..." (setLoading true st))
                  (setMessage "Parsing CSV..." (setLoading true st')) s Hs)
        as [Hstore Hmsg].
      split; [exact Hstore |].
      intros d u txs Hd _ Hu Ht. injection Hd as <-.
      now apply (Hmsg u txs).
    + cbn. split; [reflexivity |]. intros ? ? ? _ Hn. discriminate Hn.
  - cbn. split; [reflexivity |]. intros ? ? ? Hn. discriminate Hn.
Qed.

End ImportTheory.

Lemma import_twice_witness :
  snd (parseCsv (signedIn "u1" chequeTable (Some coffeeTwice))
         (snd (parseCsv (signedIn "u1" [] (Some coffeeTwice)) emptyStore)))
  = snd (parseCsv (signedIn "u1" [] (Some coffeeTwice)) emptyStore).
Proof.
  apply (import_twice_writes_nothing
           (signedIn "u1" [] (Some coffeeTwice))
           (signedIn "u1" chequeTable (Some coffeeTwice)) emptyStore);
    reflexivity.
Defined.

(** C9.  There is a file with two rows in one batch that normalize to the
    same date, description and amount, and both are written: the set of
    identity strings is the one built from the stored documents before
    the batch's writes. *)
Theorem same_batch_duplicates_both_written :
  exists data : list row,
    (exists a b,
        parsedTransactions [] data = Some [a; b]
        /\ sameTriple a b
        /\ batchStarts 2 = [0]
        /\ batchAt [a; b] 0 = [a; b]
        /\ existingTxSet "u1" [a; b] (transactionsCol emptyStore) = ∅)
    /\ shown (snd (parseCsv (signedIn "u1" [] (Some data)) emptyStore))
       = [("2024-01-05", "Coffee", "-3.5"); ("2024-01-05", "Coffee", "-3.5")]
    /\ message (fst (parseCsv (signedIn "u1" [] (Some data)) emptyStore))
       = "Successfully parsed and added 2 new transactions."%string.
Proof.
  exists coffeeTwice. split; [| split; reflexivity].
  eexists _, _. split; [reflexivity |]. repeat split.
Qed.

(** C10.  There are two transactions of one date that differ in
    description and in amount and have the same identity string, the [-]
    that ends one description standing for the sign of the other amount.
    With the first stored, the second, which equals no stored
    transaction, is skipped without notice. *)
Theorem distinct_transactions_same_identifier :
  exists a b : transaction,
    parsedTransactions [] [minusFive; plusFive] = Some [a; b]
    /\ date a = date b
    /\ description a <> description b
    /\ amount a <> amount b
    /\ txIdentifier a = "2024-01-05-a--5"%string
    /\ txIdentifier b = "2024-01-05-a--5"%string
    /\ shown (snd (parseCsv (signedIn "u1" [] (Some [minusFive])) emptyStore))
       = [("2024-01-05", "a", "-5")]
    /\ snd (parseCsv (signedIn "u1" [] (Some [plusFive]))
              (snd (parseCsv (signedIn "u1" [] (Some [minusFive]))
                      emptyStore)))
       = snd (parseCsv (signedIn "u1" [] (Some [minusFive])) emptyStore)
    /\ message
         (fst (parseCsv (signedIn "u1" [] (Some [plusFive]))
                 (snd (parseCsv (signedIn "u1" [] (Some [minusFive]))
                         emptyStore))))
       = "Successfully parsed and added 0 new transactions."%string.
Proof.
  eexists _, _. split; [reflexivity |].
  repeat split; try reflexivity; vm_compute; discriminate.
Qed.

(** * Further properties of the handlers *)

(** ** What the handlers leave alone *)

Section FrameTheory.

Context `{Number} `{DateFns}.

Lemma categoriesCol_parseCsv st s :
  categoriesCol (snd (parseCsv st s)) = categoriesCol s.
Proof.
  unfold parseCsv. destruct (file st); [| reflexivity].
  destruct (negb (papa st)); [reflexivity |].
  unfold complete. destruct (parsedTransactions _ _); [| reflexivity].
  destruct (session _); [| reflexivity].
  now destruct (saveAll _ _ _).
Qed.

Lemma transactionsCol_addCategory st s :
  transactionsCol (snd (handleAddCategory st s)) = transactionsCol s.
Proof.
  unfold handleAddCategory.
  destruct (if Js.truthy _ then _ else _); [| reflexivity].
  now destruct (existsb _ _).
Qed.

Lemma transactionsCol_deleteCategory id st s :
  transactionsCol (snd (handleDeleteCategory id st s)) = transactionsCol s.
Proof. unfold handleDeleteCategory. now destruct (session st). Qed.

Lemma categoriesCol_categoryChange id c st s :
  categoriesCol (snd (handleCategoryChange id c st s)) = categoriesCol s.
Proof.
  unfold handleCategoryChange. destruct (session st); [| reflexivity].
  now destruct (Firestore.updateDoc _ _ _).
Qed.

(** X10.  [parseCsv] never changes the categories or the rules,
    [handleCategoryChange] never changes the categories, and adding or
    deleting a category never changes a transaction or a rule (deleting a
    category does not touch the transactions tagged with it). *)
Theorem handlers_touch_their_collection_only st s :
  (categoriesCol (snd (parseCsv st s)) = categoriesCol s
   /\ rulesCol (snd (parseCsv st s)) = rulesCol s)
  /\ (forall id c,
        categoriesCol (snd (handleCategoryChange id c st s))
        = categoriesCol s)
  /\ (transactionsCol (snd (handleAddCategory st s)) = transactionsCol s
      /\ rulesCol (snd (handleAddCategory st s)) = rulesCol s)
  /\ (forall id,
        transactionsCol (snd (handleDeleteCategory id st s))
        = transactionsCol s
        /\ rulesCol (snd (handleDeleteCategory id st s)) = rulesCol s).
Proof.
  split; [split; [apply categoriesCol_parseCsv | apply rulesCol_parseCsv] |].
  split; [intros; apply categoriesCol_categoryChange |].
  split;
    [split; [apply transactionsCol_addCategory | apply rulesCol_addCategory] |].
  intros id.
  split; [apply transactionsCol_deleteCategory | apply rulesCol_deleteCategory].
Qed.

(** X11.  Without a database handle or a user, no handler writes:
    the store is left as it is, and [handleCategoryChange] and
    [handleDeleteCategory] leave the state as it is as well. *)
Theorem signed_out_handlers_write_nothing st s :
  session st = None ->
  snd (parseCsv st s) = s
  /\ (forall id c, handleCategoryChange id c st s = (st, s))
  /\ snd (handleAddCategory st s) = s
  /\ (forall id, handleDeleteCategory id st s = (st, s)).
Proof.
  intros Hs. split; [| split; [| split]].
  - unfold parseCsv. destruct (file st); [| reflexivity].
    destruct (negb (papa st)); [reflexivity |].
    unfold complete. destruct (parsedTransactions _ _); [| reflexivity].
    change (session (setMessage "Parsing CSV..." (setLoading true st)))
      with (session st).
    now rewrite Hs.
  - intros id c. unfold handleCategoryChange. now rewrite Hs.
  - unfold handleAddCategory. rewrite Hs.
    now destruct (Js.truthy _).
  - intros id. unfold handleDeleteCategory. now rewrite Hs.
Qed.

(** *** Transactions are kept *)

Lemma updateDoc_shape {A} id (upd : A -> A) (c c' : Firestore.collection A) :
  Firestore.updateDoc id upd c = Some c' ->
  c' = map (fun d => if Nat.eqb (fst d) id then (fst d, upd (snd d)) else d) c
  /\ Firestore.exists_ id c = true.
Proof.
  unfold Firestore.updateDoc.
  destruct (Firestore.exists_ id c); [| discriminate].
  intros Heq. injection Heq as <-. now split.
Qed.

Lemma txFixed_update id c (col : Firestore.collection txDoc) :
  map txFixed
    (map (fun d => if Nat.eqb (fst d) id
                   then (fst d, setCategory c (snd d)) else d) col)
  = map txFixed col.
Proof.
  rewrite map_map. apply map_ext. intros d.
  now destruct (Nat.eqb (fst d) id).
Qed.

Lemma transactions_categoryChange id c st s :
  map txFixed (transactionsCol (snd (handleCategoryChange id c st s)))
  = map txFixed (transactionsCol s).
Proof.
  unfold handleCategoryChange. destruct (session st); [| reflexivity].
  destruct (Firestore.updateDoc _ _ _) as [col|] eqn:Hu; [| reflexivity].
  apply updateDoc_shape in Hu as [-> _]. cbn. apply txFixed_update.
Qed.

Lemma ruleFixed_updated id c (col : Firestore.collection ruleDoc) :
  map ruleFixed (map (updated id c) col) = map ruleFixed col.
Proof.
  rewrite map_map. apply map_ext. intros d. unfold updated.
  now destruct (Nat.eqb (fst d) id).
Qed.

Lemma upsertRule_keeps u k c col :
  exists extra,
    map ruleFixed (upsertRule u k c col) = map ruleFixed col ++ extra
    /\ (extra = [] \/ extra = [(Firestore.freshId col, (k, u))]).
Proof.
  destruct (upsertRule_cases u k c col)
    as [[_ ->] | (id & d & rest & _ & ->)].
  - eexists. unfold Firestore.addDoc. rewrite map_app.
    split; [reflexivity | now right].
  - exists []. rewrite app_nil_r. split; [apply ruleFixed_updated | now left].
Qed.

Lemma learnRule_keeps st u id c col :
  exists extra,
    map ruleFixed (learnRule st u id c col) = map ruleFixed col ++ extra
    /\ length extra <= 1
    /\ forall e, e ∈ extra -> snd (snd e) = u.
Proof.
  assert (Hsame : exists extra : list (nat * (string * string)),
             map ruleFixed col = map ruleFixed col ++ extra
             /\ length extra <= 1 /\ forall e, e ∈ extra -> snd (snd e) = u).
  { exists []. rewrite app_nil_r. split; [reflexivity |].
    split; [cbn; lia | intros e He; inversion He]. }
  unfold learnRule.
  destruct (find _ _) as [[? tx]|]; [| exact Hsame].
  destruct (_ && _); [| exact Hsame].
  destruct (_ && _); [| exact Hsame].
  destruct (upsertRule_keeps u (keywordCandidate (txDescription tx)) c col)
    as (extra & Heq & [-> | ->]).
  - exists []. split; [exact Heq |].
    split; [cbn; lia | intros e He; inversion He].
  - eexists. split; [exact Heq |]. split; [cbn; lia |].
    intros e He. apply list_elem_of_singleton in He. now subst e.
Qed.

(** X12.  No handler removes a transaction or changes its identifier,
    date, description, amount, original row or owner: [parseCsv] adds
    documents after the stored ones and [handleCategoryChange] changes
    categories only.  [handleCategoryChange] removes no rule, changes no
    rule's keyword or owner, and adds at most one rule, owned by the
    signed-in user. *)
Theorem stored_documents_are_kept st s :
  (exists extra,
      map txFixed (transactionsCol (snd (parseCsv st s)))
      = map txFixed (transactionsCol s) ++ extra)
  /\ (forall id c,
        map txFixed (transactionsCol (snd (handleCategoryChange id c st s)))
        = map txFixed (transactionsCol s)
        /\ exists extra,
             map ruleFixed (rulesCol (snd (handleCategoryChange id c st s)))
             = map ruleFixed (rulesCol s) ++ extra
             /\ length extra <= 1
             /\ forall e, e ∈ extra -> session st = Some (snd (snd e))).
Proof.
  split.
  - unfold parseCsv.
    assert (Hsame : exists extra,
              map txFixed (transactionsCol s)
              = map txFixed (transactionsCol s) ++ extra).
    { exists []. now rewrite app_nil_r. }
    destruct (file st); [| exact Hsame].
    destruct (negb (papa st)); [exact Hsame |].
    unfold complete. destruct (parsedTransactions _ _) as [txs|];
      [| exact Hsame].
    destruct (session _) as [u|]; [| exact Hsame].
    unfold saveAll.
    destruct (fold_processBatch_spec u txs (batchStarts (length txs))
                (transactionsCol s) 0) as (extra & Heq & _).
    rewrite Heq. cbn. exists (map txFixed extra). apply map_app.
  - intros id c. split; [apply transactions_categoryChange |].
    unfold handleCategoryChange.
    assert (Hsame : exists extra : list (nat * (string * string)),
              map ruleFixed (rulesCol s) = map ruleFixed (rulesCol s) ++ extra
              /\ length extra <= 1
              /\ forall e, e ∈ extra -> session st = Some (snd (snd e))).
    { exists []. rewrite app_nil_r. split; [reflexivity |].
      split; [cbn; lia | intros e He; inversion He]. }
    destruct (session st) as [u|]; [| exact Hsame].
    destruct (Firestore.updateDoc _ _ _); [| exact Hsame].
    cbn [snd rulesCol withRules].
    destruct (learnRule_keeps st u id c (rulesCol s))
      as (extra & Heq & Hlen & Hown).
    exists extra. split; [exact Heq |]. split; [exact Hlen |].
    intros e He. now rewrite (Hown e He).
Qed.

(** *** [handleCategoryChange] on the transaction *)

Lemma exists_false {A} id (c : Firestore.collection A) d :
  Firestore.exists_ id c = false -> d ∈ c -> fst d <> id.
Proof.
  unfold Firestore.exists_. intros He Hd Hid.
  assert (Ht : existsb (fun d => Nat.eqb (fst d) id) c = true).
  { apply existsb_exists. exists d.
    split; [now apply list_elem_of_In | now apply Nat.eqb_eq]. }
  congruence.
Qed.

(** X13.  For a signed-in user: on a transaction that is not stored,
    [handleCategoryChange] changes nothing in the store and reports the
    error (no rule is learned); on a stored transaction it sets that
    transaction's category, leaves every other transaction as it is and
    reports the update. *)
Theorem category_change_on_transaction id c st s u :
  session st = Some u ->
  (Firestore.exists_ id (transactionsCol s) = false ->
   snd (handleCategoryChange id c st s) = s
   /\ String.prefix "Error updating category: "
        (message (fst (handleCategoryChange id c st s))) = true)
  /\ (forall d,
        (id, d) ∈ transactionsCol s ->
        (id, setCategory c d)
          ∈ transactionsCol (snd (handleCategoryChange id c st s))
        /\ (forall e, e ∈ transactionsCol s -> fst e <> id ->
              e ∈ transactionsCol (snd (handleCategoryChange id c st s)))
        /\ length (transactionsCol (snd (handleCategoryChange id c st s)))
           = length (transactionsCol s)
        /\ message (fst (handleCategoryChange id c st s))
           = "Transaction category updated."%string).
Proof.
  intros Hs. unfold handleCategoryChange. rewrite Hs. split.
  - intros He. unfold Firestore.updateDoc. now rewrite He.
  - intros d Hd. unfold Firestore.updateDoc.
    rewrite (exists_true id (transactionsCol s) (id, d) Hd eq_refl).
    cbn [snd fst transactionsCol withRules withTransactions message
         setMessage].
    split; [| split; [| split]].
    + apply list_elem_of_In, in_map_iff. exists (id, d).
      cbn. rewrite Nat.eqb_refl. split; [reflexivity |].
      now apply list_elem_of_In.
    + intros e He Hne. apply list_elem_of_In, in_map_iff. exists e.
      rewrite (proj2 (Nat.eqb_neq _ _) Hne).
      split; [reflexivity | now apply list_elem_of_In].
    + apply length_map.
    + reflexivity.
Qed.

(** X14.  The rules are left as they are when the new category is
    "Uncategorized" or empty, when the transaction is not in the fetched
    list, when the derived keyword is empty, or when the rule table
    already maps the derived keyword to the new category. *)
Theorem no_rule_learned id c st s :
  c = "Uncategorized"%string
  \/ c = ""%string
  \/ find (fun d => Nat.eqb (fst d) id) (transactions st) = None
  \/ (exists i tx,
        find (fun d => Nat.eqb (fst d) id) (transactions st) = Some (i, tx)
        /\ (keywordCandidate (txDescription tx) = ""%string
            \/ Obj.get (keywordCandidate (txDescription tx)) (rules st)
               = Some c)) ->
  rulesCol (snd (handleCategoryChange id c st s)) = rulesCol s.
Proof.
  intros Hcase. unfold handleCategoryChange.
  destruct (session st) as [u|]; [| reflexivity].
  destruct (Firestore.updateDoc _ _ _); [| reflexivity].
  cbn [snd rulesCol withRules]. unfold learnRule.
  destruct Hcase as [-> | [-> | [-> | (i & tx & -> & Hk)]]].
  - now destruct (find _ _) as [[? ?]|].
  - destruct (find _ _) as [[? ?]|]; [| reflexivity].
    now rewrite andb_false_r.
  - reflexivity.
  - destruct (negb (c =? "Uncategorized")%string && negb (c =? "")%string)
      eqn:Hc; [| reflexivity].
    destruct Hk as [-> | Hg]; [reflexivity |].
    unfold ruleOutdated. rewrite Hg, String.eqb_refl.
    apply andb_true_iff in Hc as [_ Hc].
    unfold Js.truthy. rewrite Hc. now rewrite andb_false_r.
Qed.

End FrameTheory.

(** ** The normalizer *)

Section NormalizerTheory.

Context `{Number} `{DateFns}.

(** *** [trim] *)

Lemma trimEnd_idem s : Js.trimEnd (Js.trimEnd s) = Js.trimEnd s.
Proof.
  induction s as [|c s IH]; [reflexivity |].
  cbn [Js.trimEnd].
  destruct (Js.isWhiteSpace c && (Js.trimEnd s =? "")%string) eqn:Hc;
    [reflexivity |].
  cbn [Js.trimEnd]. now rewrite IH, Hc.
Qed.

Lemma trimStart_head s :
  Js.trimStart s = EmptyString
  \/ exists c r, Js.trimStart s = String c r /\ Js.isWhiteSpace c = false.
Proof.
  induction s as [|c s IH]; [now left |].
  cbn [Js.trimStart]. destruct (Js.isWhiteSpace c) eqn:Hc; [exact IH |].
  right. now exists c, s.
Qed.

Lemma trimStart_trimEnd_head c r :
  Js.isWhiteSpace c = false ->
  Js.trimStart (Js.trimEnd (String c r)) = Js.trimEnd (String c r).
Proof.
  intros Hc. cbn [Js.trimEnd]. rewrite Hc. cbn [andb Js.trimStart].
  now rewrite Hc.
Qed.

Lemma trim_idem s : Js.trim (Js.trim s) = Js.trim s.
Proof.
  unfold Js.trim.
  destruct (trimStart_head s) as [-> | (c & r & -> & Hc)]; [reflexivity |].
  now rewrite trimStart_trimEnd_head, trimEnd_idem.
Qed.

(** *** The amount *)

Lemma stripNonNumeric_numeric s :
  forallb Js.isNumericChar (list_ascii_of_string (Js.stripNonNumeric s)) = true.
Proof.
  induction s as [|c s IH]; [reflexivity |].
  cbn [Js.stripNonNumeric]. destruct (Js.isNumericChar c) eqn:Hc; [| exact IH].
  cbn. now rewrite Hc, IH.
Qed.

Lemma stripNonNumeric_fixed s :
  forallb Js.isNumericChar (list_ascii_of_string s) = true ->
  Js.stripNonNumeric s = s.
Proof.
  induction s as [|c s IH]; [reflexivity |].
  cbn. intros Hs. apply andb_true_iff in Hs as [Hc Hs].
  now rewrite Hc, IH.
Qed.

Lemma stripNonNumeric_app a b :
  Js.stripNonNumeric (a +:+ b) = Js.stripNonNumeric a +:+ Js.stripNonNumeric b.
Proof.
  induction a as [|c a IH]; [reflexivity |].
  change (String c a +:+ b) with (String c (a +:+ b)).
  cbn [Js.stripNonNumeric]. rewrite IH. now destruct (Js.isNumericChar c).
Qed.

(** X2.  Cleaning an amount text leaves only digits, [.] and [-], cleaning
    twice changes nothing more, cleaning goes piece by piece, and a
    character that is not numeric may be put anywhere without changing
    the cleaned text. *)
Theorem stripNonNumeric_keeps_numeric s :
  forallb Js.isNumericChar (list_ascii_of_string (Js.stripNonNumeric s)) = true
  /\ Js.stripNonNumeric (Js.stripNonNumeric s) = Js.stripNonNumeric s
  /\ (forall a b,
        Js.stripNonNumeric (a +:+ b)
        = Js.stripNonNumeric a +:+ Js.stripNonNumeric b)
  /\ (forall c, Js.isNumericChar c = false ->
        forall a b, Js.stripNonNumeric (a +:+ String c b)
                    = Js.stripNonNumeric (a +:+ b)).
Proof.
  split; [apply stripNonNumeric_numeric |]. split.
  - apply stripNonNumeric_fixed, stripNonNumeric_numeric.
  - split; [apply stripNonNumeric_app |].
    intros c Hc a b. rewrite !stripNonNumeric_app. cbn [Js.stripNonNumeric].
    now rewrite Hc.
Qed.

(** X1.  For a row whose [Debit] cell is not usable (absent, empty, not a
    number or zero) and whose [Credit] cell is non-empty and parses to a
    number other than zero, the normalized amount is that number. *)
Theorem credit_used r c :
  usable r "Debit" = false ->
  r !! "Credit"%string = Some c -> Js.truthy c = true ->
  isNaN (parseFloat c) = false -> isZero (parseFloat c) = false ->
  resolveAmount r = parseFloat c
  /\ forall rules tx,
       normalizeRow rules r = Some tx -> amount tx = parseFloat c.
Proof.
  intros Hd Hc Ht Hn Hz.
  assert (Hr : resolveAmount r = parseFloat c).
  { unfold resolveAmount, usable, cell, numTruthy in *.
    rewrite Hd. now rewrite Hc, Ht, Hn, Hz. }
  split; [exact Hr |].
  intros rules tx. unfold normalizeRow. rewrite Hr, Hn.
  destruct (if Js.truthy _ then _ else _); [| discriminate].
  intros Heq. now injection Heq as <-.
Qed.

(** *** The rows that reach the store *)

Lemma normalizeRow_fields rules r tx :
  normalizeRow rules r = Some tx ->
  description tx = Js.trim (rawDescription r)
  /\ category tx = categorize (rawDescription r) rules
  /\ originalRow tx = r
  /\ isNaN (amount tx) = false
  /\ (if Js.truthy (rawDate r)
      then formatParseISO (rawDate r) = Some (date tx)
      else date tx = EmptyString).
Proof.
  unfold normalizeRow.
  destruct (Js.truthy (rawDate r)).
  - destruct (formatParseISO (rawDate r)) as [d|]; [| discriminate].
    intros Heq. injection Heq as <-. cbn. repeat split.
    destruct (isNaN (resolveAmount r)) eqn:Hn; [apply isNaN_zero | exact Hn].
  - intros Heq. injection Heq as <-. cbn. repeat split.
    destruct (isNaN (resolveAmount r)) eqn:Hn; [apply isNaN_zero | exact Hn].
Qed.

Lemma mapRows_elem rules data txs tx :
  mapRows rules data = Some txs -> tx ∈ txs ->
  exists r, r ∈ data /\ normalizeRow rules r = Some tx.
Proof.
  revert txs. induction data as [|r data IH]; intros txs; cbn [mapRows].
  - intros Heq. injection Heq as <-. intros Hin. inversion Hin.
  - destruct (normalizeRow rules r) as [t|] eqn:Hr; [| discriminate].
    destruct (mapRows rules data) as [ts|]; [| discriminate].
    intros Heq. injection Heq as <-. intros Hin.
    apply elem_of_cons in Hin as [-> | Hin].
    + exists r. split; [left | exact Hr].
    + destruct (IH ts eq_refl Hin) as (r' & Hr' & Hn).
      exists r'. split; [now right | exact Hn].
Qed.

(** X3.  Every candidate that passes the row filter has a non-empty
    description without white space at either end and an amount that is
    not NaN; it comes from a row of the file, keeps that row, has the
    category the categorizer gives the row's raw description, and its date
    is empty when the row has none and the printed date otherwise. *)
Theorem stored_rows_are_clean rules data txs tx :
  parsedTransactions rules data = Some txs -> tx ∈ txs ->
  description tx <> EmptyString
  /\ Js.trim (description tx) = description tx
  /\ isNaN (amount tx) = false
  /\ exists r, r ∈ data
       /\ originalRow tx = r
       /\ description tx = Js.trim (rawDescription r)
       /\ category tx = categorize (rawDescription r) rules
       /\ (if Js.truthy (rawDate r)
           then formatParseISO (rawDate r) = Some (date tx)
           else date tx = EmptyString).
Proof.
  unfold parsedTransactions.
  destruct (mapRows rules data) as [all|] eqn:Hm; [| discriminate].
  intros Heq. injection Heq as <-. intros Hin.
  apply list_elem_of_In, filter_In in Hin as [Hin Hv].
  apply list_elem_of_In in Hin.
  destruct (mapRows_elem rules data all tx Hm Hin) as (r & Hr & Hn).
  destruct (normalizeRow_fields rules r tx Hn) as (Hd & Hc & Ho & Ha & Hdate).
  unfold valid in Hv. apply andb_true_iff in Hv as [Hv _].
  split; [| split; [| split]].
  - unfold Js.truthy in Hv. apply negb_true_iff, String.eqb_neq in Hv.
    exact Hv.
  - rewrite Hd. apply trim_idem.
  - exact Ha.
  - exists r. repeat split; assumption.
Qed.

Lemma mapRows_none rules data :
  mapRows rules data = None <->
  exists r, r ∈ data /\ Js.truthy (rawDate r) = true
            /\ formatParseISO (rawDate r) = None.
Proof.
  induction data as [|r data IH]; cbn [mapRows].
  - split; [discriminate | intros (r & Hr & _); inversion Hr].
  - destruct (normalizeRow rules r) as [t|] eqn:Hr.
    + destruct (mapRows rules data) as [ts|].
      * split; [discriminate |]. intros (x & Hx & Ht & Hf).
        apply elem_of_cons in Hx as [-> | Hx].
        -- unfold normalizeRow in Hr. rewrite Ht, Hf in Hr. discriminate Hr.
        -- assert (Hn : Some ts = None) by (apply IH; now exists x).
           discriminate Hn.
      * split; [| reflexivity]. intros _.
        destruct (proj1 IH eq_refl) as (x & Hx & Hrest).
        exists x. split; [now right | exact Hrest].
    + split; [| reflexivity]. intros _. exists r. split; [left |].
      unfold normalizeRow in Hr.
      destruct (Js.truthy (rawDate r)); [| discriminate].
      destruct (formatParseISO (rawDate r)); [discriminate | now split].
Qed.

End NormalizerTheory.

(** ** Batches and writes *)

Section BatchTheory.

Context `{Number} `{DateFns}.

Lemma batchStarts_lt n i : i ∈ batchStarts n -> i < n.
Proof.
  unfold batchStarts, batchSize. intros Hi.
  apply list_elem_of_In, in_map_iff in Hi as (b & <- & Hb).
  apply in_seq in Hb.
  pose proof (Nat.div_mod_eq (n + (50 - 1)) 50) as Hd.
  pose proof (Nat.mod_upper_bound (n + (50 - 1)) 50) as Hm.
  lia.
Qed.

Lemma batchAt_length txs i :
  length (batchAt txs i) = Nat.min batchSize (length txs - i).
Proof. unfold batchAt. now rewrite length_take, length_drop. Qed.

Lemma elem_of_batchAt (txs : list transaction) i tx :
  tx ∈ batchAt txs i -> tx ∈ txs.
Proof.
  unfold batchAt. intros Hin.
  apply elem_of_take in Hin as (j & Hj & _).
  rewrite lookup_drop in Hj. apply list_elem_of_lookup. now exists (i + j).
Qed.

Lemma elem_of_some_batch (txs : list transaction) tx :
  tx ∈ txs ->
  exists i, i ∈ batchStarts (length txs) /\ tx ∈ batchAt txs i.
Proof.
  intros Hin. rewrite <- (batches_cover txs) in Hin at 1.
  apply list_elem_of_In, in_concat in Hin as (b & Hb & Hin).
  apply in_map_iff in Hb as (i & <- & Hi).
  exists i. split; now apply list_elem_of_In.
Qed.

(** X5.  The batches of the outer loop, one after the other, are the list
    of candidates; each batch has at least one and at most [batchSize]
    candidates; and there is no batch exactly when there is no
    candidate. *)
Theorem batches_partition (txs : list transaction) :
  concat (map (batchAt txs) (batchStarts (length txs))) = txs
  /\ (forall i, i ∈ batchStarts (length txs) ->
        0 < length (batchAt txs i) <= batchSize)
  /\ (batchStarts (length txs) = [] <-> txs = []).
Proof.
  split; [apply batches_cover |]. split.
  - intros i Hi. apply batchStarts_lt in Hi. rewrite batchAt_length.
    unfold batchSize. lia.
  - split.
    + intros He. pose proof (batches_cover txs) as Hc.
      rewrite He in Hc. now symmetry.
    + now intros ->.
Qed.

(** *** What a batch writes *)

Lemma writeBatch_exact u existing batch col n :
  exists extra,
    writeBatch u existing batch (col, n) = (col ++ extra, n + length extra)
    /\ map snd extra
       = map (fun tx => withUser tx u)
           (filter (fun tx => txIdentifier tx ∉ existing) batch).
Proof.
  revert col n. induction batch as [|tx batch IH]; intros col n.
  - exists []. cbn. now rewrite app_nil_r, Nat.add_0_r.
  - cbn [writeBatch]. rewrite filter_cons. case_bool_decide as Hk.
    + rewrite decide_False by tauto. apply IH.
    + rewrite decide_True by exact Hk. cbn [fst snd].
      destruct (IH (Firestore.addDoc col (withUser tx u)) (S n))
        as (extra & Heq & Hm).
      exists ((Firestore.freshId col, withUser tx u) :: extra).
      split.
      * rewrite Heq. unfold Firestore.addDoc. rewrite <- app_assoc.
        cbn. f_equal. lia.
      * cbn. now rewrite Hm.
Qed.

Lemma fold_processBatch_bound u txs starts col n :
  exists extra,
    fold_left (processBatch u txs) starts (col, n)
    = (col ++ extra, n + length extra)
    /\ length extra <= length (concat (map (batchAt txs) starts))
    /\ forall d, d ∈ extra ->
         exists tx, tx ∈ txs /\ snd d = withUser tx u.
Proof.
  revert col n.
  induction starts as [|i starts IH]; intros col n; cbn [fold_left].
  - exists []. rewrite app_nil_r, Nat.add_0_r.
    split; [reflexivity |]. split; [cbn; lia |]. intros d Hd. inversion Hd.
  - unfold processBatch at 2. cbn [fst].
    destruct (writeBatch_exact u (existingTxSet u (batchAt txs i) col)
                (batchAt txs i) col n) as (e1 & Heq1 & Hm1).
    rewrite Heq1.
    destruct (IH (col ++ e1) (n + length e1)) as (e2 & Heq2 & Hlen2 & Hfrom2).
    exists (e1 ++ e2). split; [| split].
    + etrans; [exact Heq2 |]. rewrite length_app, <- app_assoc.
      f_equal. lia.
    + cbn [map concat]. rewrite !length_app.
      assert (length e1 <= length (batchAt txs i)).
      { rewrite <- (length_map snd e1), Hm1, length_map.
        apply length_filter. }
      lia.
    + intros d Hd. apply elem_of_app in Hd as [Hd | Hd]; [| now apply Hfrom2].
      assert (Hs : snd d ∈ map snd e1).
      { apply list_elem_of_In, in_map, list_elem_of_In, Hd. }
      rewrite Hm1 in Hs.
      apply list_elem_of_In, in_map_iff in Hs as (tx & Htx & Hin).
      apply list_elem_of_In, list_elem_of_filter in Hin as [_ Hin].
      exists tx. split; [now apply elem_of_batchAt in Hin | now symmetry].
Qed.

(** X6.  [parseCsv] only appends to the transactions collection and
    leaves the rest of the store as it is.  Each appended document carries
    the signed-in user and is a parsed candidate of the file; there are at
    most as many as candidates; and the message reports their number. *)
Theorem import_only_appends st s :
  exists extra,
    snd (parseCsv st s) = withTransactions (transactionsCol s ++ extra) s
    /\ (forall d, d ∈ extra -> session st = Some (txUserId (snd d)))
    /\ (forall data txs,
          file st = Some data -> papa st = true ->
          parsedTransactions (rules st) data = Some txs ->
          length extra <= length txs
          /\ (forall d, d ∈ extra ->
                exists tx, tx ∈ txs
                  /\ snd d = withUser tx (txUserId (snd d)))
          /\ (session st <> None ->
              message (fst (parseCsv st s))
              = "Successfully parsed and added "
                +:+ Js.natToString (length extra)
                +:+ " new transactions.")).
Proof.
  assert (Hnone : exists extra,
    s = withTransactions (transactionsCol s ++ extra) s
    /\ (forall d, d ∈ extra -> session st = Some (txUserId (snd d)))
    /\ extra = []).
  { exists []. rewrite app_nil_r. split; [now destruct s |].
    split; [intros d Hd; inversion Hd | reflexivity]. }
  unfold parseCsv. destruct (file st) as [data|] eqn:Hf.
  - destruct (papa st) eqn:Hp; cbn [negb].
    + unfold complete. cbn [rules setMessage setLoading].
      destruct (parsedTransactions (rules st) data) as [txs|] eqn:Hparse.
      * change (session (setMessage "Parsing CSV..." (setLoading true st)))
          with (session st).
        destruct (session st) as [u|] eqn:Hs.
        -- destruct (fold_processBatch_bound u txs
                       (batchStarts (length txs)) (transactionsCol s) 0)
             as (extra & Heq & Hlen & Hfrom).
           unfold saveAll. rewrite Heq. cbn [fst snd message setMessage
             setLoading setFile].
           exists extra. split; [reflexivity |]. split.
           ++ intros d Hd. destruct (Hfrom d Hd) as (tx & _ & ->).
              reflexivity.
           ++ intros data' txs' Hd' _ Hp'.
              assert (data' = data) as -> by congruence.
              assert (txs' = txs) as -> by congruence.
              rewrite batches_cover in Hlen.
              split; [exact Hlen |]. split; [| reflexivity].
              intros d Hd. destruct (Hfrom d Hd) as (tx & Htx & Hsnd).
              exists tx. split; [exact Htx |]. now rewrite Hsnd.
        -- destruct Hnone as (extra & He & Hu & ->). exists [].
           split; [exact He |]. split; [exact Hu |].
           intros data' txs' _ _ _. split; [cbn; lia |].
           split; [intros d Hd; inversion Hd | intros Hn; now destruct Hn].
      * destruct Hnone as (extra & He & Hu & ->). exists [].
        split; [exact He |]. split; [exact Hu |].
        intros data' txs' Hd' _ Hp'.
        assert (data' = data) as -> by congruence. congruence.
    + destruct Hnone as (extra & He & Hu & ->). exists [].
      split; [exact He |]. split; [exact Hu |].
      intros data' txs' _ Hp' _. discriminate Hp'.
  - destruct Hnone as (extra & He & Hu & ->). exists [].
    split; [exact He |]. split; [exact Hu |].
    intros data' txs' Hd' _ _. discriminate Hd'.
Qed.

(** X7.  After the loop over the batches, the identity string of every
    candidate is the identity string of a stored document of the owner,
    whether the candidate was written or skipped. *)
Theorem every_candidate_is_stored u txs col tx :
  tx ∈ txs ->
  exists d, d ∈ fst (saveAll u txs col)
    /\ txUserId (snd d) = u
    /\ docIdentifier (snd d) = txIdentifier tx.
Proof.
  intros Hin. unfold saveAll.
  destruct (fold_processBatch_spec u txs (batchStarts (length txs)) col 0)
    as (extra & Heq & Hall).
  rewrite Heq. cbn [fst].
  destruct (elem_of_some_batch txs tx Hin) as (i & Hi & Hb).
  specialize (Hall i tx Hi Hb).
  apply elem_of_existingTxSet in Hall as (d & Hd & _ & Hu & Hid).
  now exists d.
Qed.

Lemma batchStarts_small n : 0 < n <= batchSize -> batchStarts n = [0].
Proof.
  unfold batchStarts, batchSize. intros Hn.
  pose proof (Nat.div_mod_eq (n + (50 - 1)) 50) as Hd.
  pose proof (Nat.mod_upper_bound (n + (50 - 1)) 50) as Hm.
  assert ((n + (50 - 1)) / 50 = 1) as -> by lia.
  reflexivity.
Qed.

(** X8.  For at most [batchSize] candidates there is one query: exactly
    the candidates whose identity string the query did not return are
    written, in the order of the file and as often as they occur, and
    [savedCount] is their number. *)
Theorem small_file_written_exactly u txs col :
  length txs <= batchSize ->
  map snd (fst (saveAll u txs col))
  = map snd col
    ++ map (fun tx => withUser tx u)
         (filter (fun tx => txIdentifier tx ∉ existingTxSet u txs col) txs)
  /\ snd (saveAll u txs col)
     = length (filter (fun tx => txIdentifier tx ∉ existingTxSet u txs col)
                 txs).
Proof.
  intros Hlen. unfold saveAll. destruct txs as [|t txs].
  - cbn. now rewrite app_nil_r.
  - rewrite batchStarts_small by (cbn [length] in *; lia).
    cbn [fold_left]. unfold processBatch. cbn [fst].
    assert (Hb : batchAt (t :: txs) 0 = t :: txs).
    { unfold batchAt. rewrite drop_0. now apply take_ge. }
    rewrite Hb.
    destruct (writeBatch_exact u (existingTxSet u (t :: txs) col)
                (t :: txs) col 0) as (extra & Heq & Hm).
    rewrite Heq. cbn [fst snd]. split; [now rewrite map_app, Hm |].
    cbn [Nat.add]. now rewrite <- (length_map snd extra), Hm, length_map.
Qed.

(** X9.  The dates passed to the query have no duplicate and are the
    dates of the batch. *)
Theorem unique_spec l :
  NoDup (unique l) /\ (forall v, v ∈ unique l <-> v ∈ l).
Proof.
  split; [| intros v; apply elem_of_unique].
  unfold unique. generalize (@nil string) as seen.
  induction l as [|a l IH]; intros seen; cbn [uniqueFrom].
  - constructor.
  - case_bool_decide; [apply IH |].
    constructor; [| apply IH].
    rewrite elem_of_uniqueFrom. intros [_ Hn]. apply Hn.
    apply elem_of_app. right. left.
Qed.

End BatchTheory.

(** ** Keywords, the categorizer and the rule table *)

Section TableTheory.

Context `{Number} `{DateFns}.

(** *** Lower case *)

Lemma lowerChar_idem c : Js.lowerChar (Js.lowerChar c) = Js.lowerChar c.
Proof. destruct c as [[] [] [] [] [] [] [] []]; reflexivity. Qed.

Lemma toLowerCase_idem s : Js.toLowerCase (Js.toLowerCase s) = Js.toLowerCase s.
Proof.
  induction s as [|c s IH]; [reflexivity |].
  cbn. now rewrite lowerChar_idem, IH.
Qed.

Lemma lower_prefix k r :
  Js.toLowerCase (k +:+ r) = k +:+ r -> Js.toLowerCase k = k.
Proof.
  induction k as [|c k IH]; [reflexivity |].
  rewrite append_cons. cbn [Js.toLowerCase]. intros Heq.
  injection Heq as Hc Hr. now rewrite Hc, (IH Hr).
Qed.

(** *** [split] and [join] *)

Lemma split_nonempty sep s : Js.split sep s <> [].
Proof.
  destruct s as [|c s]; cbn; [discriminate |].
  destruct (Ascii.eqb c sep); [discriminate |].
  now destruct (Js.split sep s).
Qed.

Lemma join_cons2 sep a b l :
  Js.join sep (a :: b :: l) = a +:+ sep +:+ Js.join sep (b :: l).
Proof. reflexivity. Qed.

Lemma join_split sep s : Js.join (String sep "") (Js.split sep s) = s.
Proof.
  induction s as [|c s IH]; [reflexivity |].
  cbn [Js.split]. destruct (Ascii.eqb c sep) eqn:Hc.
  - apply Ascii.eqb_eq in Hc. subst c.
    pose proof (split_nonempty sep s) as Hne.
    destruct (Js.split sep s) as [|b l]; [contradiction |].
    rewrite join_cons2, IH. reflexivity.
  - pose proof (split_nonempty sep s) as Hne.
    destruct (Js.split sep s) as [|b l]; [contradiction |].
    destruct l as [|b' l].
    + cbn in *. now rewrite IH.
    + rewrite join_cons2 in *. rewrite append_cons. now rewrite IH.
Qed.

Lemma append_assoc (a b c : string) : (a +:+ b) +:+ c = a +:+ (b +:+ c).
Proof.
  induction a as [|x a IH]; [reflexivity |].
  rewrite !append_cons. now rewrite IH.
Qed.

Lemma append_empty_r (a : string) : a +:+ "" = a.
Proof.
  induction a as [|x a IH]; [reflexivity |].
  rewrite append_cons. now rewrite IH.
Qed.

Lemma join_take2_prefix sep l :
  exists rest, Js.join sep l = Js.join sep (take 2 l) +:+ rest.
Proof.
  destruct l as [|a [|b [|c l]]].
  - now exists ""%string.
  - exists ""%string. cbn. now rewrite append_empty_r.
  - exists ""%string. cbn [take]. now rewrite append_empty_r.
  - exists (sep +:+ Js.join sep (c :: l)). cbn [take].
    rewrite !join_cons2. cbn [Js.join]. now rewrite !append_assoc.
Qed.

Lemma keywordCandidate_lower d :
  Js.toLowerCase (keywordCandidate d) = keywordCandidate d.
Proof.
  unfold keywordCandidate.
  destruct (join_take2_prefix " " (Js.split " " (Js.toLowerCase d)))
    as [rest Hrest].
  rewrite join_split in Hrest.
  apply (lower_prefix _ rest). rewrite <- Hrest. apply toLowerCase_idem.
Qed.

Lemma keywordCandidate_included d :
  Js.includes (Js.toLowerCase d) (keywordCandidate d) = true.
Proof.
  unfold keywordCandidate.
  destruct (join_take2_prefix " " (Js.split " " (Js.toLowerCase d)))
    as [rest Hrest].
  rewrite join_split in Hrest.
  apply includes_substring. exists ""%string, rest. exact Hrest.
Qed.

(** X15.  The keyword the learner derives is the beginning of the
    lower-cased description, so it occurs in it and the rule learned from
    a transaction matches that transaction; it is in lower case; and it is
    empty only for a description that is empty or begins with a space. *)
Theorem keyword_is_prefix description :
  (exists rest,
      Js.toLowerCase description = keywordCandidate description +:+ rest)
  /\ Js.includes (Js.toLowerCase description) (keywordCandidate description)
     = true
  /\ Js.toLowerCase (keywordCandidate description)
     = keywordCandidate description
  /\ (keywordCandidate description = ""%string ->
      description = ""%string
      \/ exists rest, description = String " " rest).
Proof.
  split; [| split; [apply keywordCandidate_included |
                    split; [apply keywordCandidate_lower |]]].
  - unfold keywordCandidate.
    destruct (join_take2_prefix " " (Js.split " " (Js.toLowerCase description)))
      as [rest Hrest].
    rewrite join_split in Hrest. now exists rest.
  - unfold keywordCandidate. intros Hk.
    destruct description as [|c d]; [now left |]. right.
    cbn [Js.toLowerCase Js.split] in Hk.
    destruct (Ascii.eqb (Js.lowerChar c) " ") eqn:Hc.
    + exists d. f_equal.
      apply Ascii.eqb_eq in Hc.
      destruct c as [[] [] [] [] [] [] [] []]; try discriminate Hc;
        reflexivity.
    + exfalso.
      pose proof (split_nonempty " " (Js.toLowerCase d)) as Hne.
      destruct (Js.split " " (Js.toLowerCase d)) as [|b [|b' l]];
        [contradiction | |]; cbn in Hk; discriminate Hk.
Qed.

(** *** The categorizer *)

Lemma firstMatch_result l entries cat :
  firstMatch l entries cat = cat
  \/ exists k, (k, firstMatch l entries cat) ∈ entries
               /\ Js.includes l k = true.
Proof.
  induction entries as [|[k c] entries IH]; [now left |].
  cbn [firstMatch]. destruct (Js.includes l k) eqn:Hk.
  - right. exists k. split; [left | exact Hk].
  - destruct IH as [-> | (k' & Hin & Hk')]; [now left |].
    right. exists k'. split; [now right | exact Hk'].
Qed.

(** X16.  The category does not depend on the letter case of the
    description; it is "Uncategorized" or the category of a rule whose
    keyword occurs in the lower-cased description; with no rule it is
    "Uncategorized". *)
Theorem categorize_result description rules :
  categorize (Js.toLowerCase description) rules = categorize description rules
  /\ (categorize description rules = "Uncategorized"%string
      \/ exists k,
           (k, categorize description rules) ∈ rules
           /\ Js.includes (Js.toLowerCase description) k = true)
  /\ categorize description [] = "Uncategorized"%string.
Proof.
  unfold categorize. rewrite toLowerCase_idem.
  split; [reflexivity |]. split; [| reflexivity].
  destruct (firstMatch_result (Js.toLowerCase description) (Obj.forIn rules)
              "Uncategorized") as [-> | (k & Hin & Hk)]; [now left |].
  right. exists k. split; [now apply elem_of_forIn | exact Hk].
Qed.

(** *** Tables *)

Lemma get_define k k' v o :
  Obj.get k (Obj.define k' v o)
  = if (k' =? k)%string then Some v else Obj.get k o.
Proof.
  induction o as [|[a b] o IH]; cbn [Obj.define Obj.get].
  - now destruct (k' =? k)%string.
  - destruct (a =? k')%string eqn:Ha.
    + apply String.eqb_eq in Ha. subst a. cbn [Obj.get].
      now destruct (k' =? k)%string.
    + cbn [Obj.get]. destruct (a =? k)%string eqn:Hk; [| exact IH].
      apply String.eqb_eq in Hk. subst a.
      now rewrite String.eqb_sym, Ha.
Qed.

Lemma get_set k k' v o :
  Obj.get k (Obj.set k' v o)
  = if (k' =? "__proto__")%string then Obj.get k o
    else if (k' =? k)%string then Some v else Obj.get k o.
Proof.
  unfold Obj.set. destruct (k' =? "__proto__")%string; [reflexivity |].
  apply get_define.
Qed.

Lemma keys_define k v o :
  map fst (Obj.define k v o)
  = if bool_decide (k ∈ map fst o) then map fst o else map fst o ++ [k].
Proof.
  induction o as [|[a b] o IH]; [reflexivity |].
  cbn [Obj.define map fst]. destruct (a =? k)%string eqn:Ha.
  - apply String.eqb_eq in Ha. subst a.
    rewrite bool_decide_eq_true_2 by left. reflexivity.
  - apply String.eqb_neq in Ha. cbn [map fst]. rewrite IH.
    destruct (bool_decide (k ∈ map fst o)) eqn:Hd.
    + apply bool_decide_eq_true in Hd.
      rewrite bool_decide_eq_true_2 by now right. reflexivity.
    + apply bool_decide_eq_false in Hd.
      rewrite bool_decide_eq_false_2; [reflexivity |].
      intros Hin. apply elem_of_cons in Hin as [-> | Hin]; contradiction.
Qed.

Lemma set_NoDup k v o : NoDup (map fst o) -> NoDup (map fst (Obj.set k v o)).
Proof.
  intros Hnd. unfold Obj.set.
  destruct (k =? "__proto__")%string; [exact Hnd |].
  rewrite keys_define. case_bool_decide as Hk; [exact Hnd |].
  apply NoDup_app. split; [exact Hnd |]. split; [| apply NoDup_singleton].
  intros x Hx Hx'. apply list_elem_of_singleton in Hx'. now subst x.
Qed.

Lemma rulesOfSnapshot_snoc docs d :
  rulesOfSnapshot (docs ++ [d])
  = Obj.set (Js.toLowerCase (ruleKeyword (snd d))) (ruleCategory (snd d))
      (rulesOfSnapshot docs).
Proof. unfold rulesOfSnapshot. now rewrite fold_left_app. Qed.

Lemma rulesOfSnapshot_NoDup docs : NoDup (map fst (rulesOfSnapshot docs)).
Proof.
  induction docs as [|d docs IH] using rev_ind; [constructor |].
  rewrite rulesOfSnapshot_snoc. now apply set_NoDup.
Qed.

Lemma get_elem k v o : Obj.get k o = Some v -> (k, v) ∈ o.
Proof.
  induction o as [|[a b] o IH]; [discriminate |].
  cbn [Obj.get]. destruct (a =? k)%string eqn:Ha.
  - apply String.eqb_eq in Ha. subst a. intros Heq. injection Heq as ->. left.
  - intros Hg. right. now apply IH.
Qed.

Lemma elem_get k v o :
  NoDup (map fst o) -> (k, v) ∈ o -> Obj.get k o = Some v.
Proof.
  induction o as [|[a b] o IH]; intros Hnd Hin; [inversion Hin |].
  cbn [Obj.get]. cbn in Hnd. apply NoDup_cons in Hnd as [Ha Hnd].
  apply elem_of_cons in Hin as [Heq | Hin].
  - injection Heq as -> ->. now rewrite String.eqb_refl.
  - destruct (a =? k)%string eqn:Hk; [| now apply IH].
    apply String.eqb_eq in Hk. subst a. exfalso. apply Ha.
    apply list_elem_of_In, in_map_iff. exists (k, v).
    split; [reflexivity | now apply list_elem_of_In].
Qed.

(** The documents that give the table its entry for [k]: those whose
    lower-cased keyword is [k], the key [__proto__] apart. *)
Lemma get_rulesOfSnapshot docs k :
  Obj.get k (rulesOfSnapshot docs)
  = option_map (fun d => ruleCategory (snd d))
      (find (keyedBy k) (rev docs)).
Proof.
  induction docs as [|d docs IH] using rev_ind; [reflexivity |].
  rewrite rulesOfSnapshot_snoc, get_set, rev_app_distr. cbn [rev app find].
  unfold keyedBy at 1.
  destruct (_ =? "__proto__")%string; cbn [negb andb]; [exact IH |].
  destruct (_ =? k)%string; [reflexivity | exact IH].
Qed.

Lemma keyedBy_spec k d :
  keyedBy k d = true
  <-> Js.toLowerCase (ruleKeyword (snd d)) = k /\ k <> "__proto__"%string.
Proof.
  unfold keyedBy. rewrite andb_true_iff, negb_true_iff.
  rewrite String.eqb_neq, String.eqb_eq. split.
  - intros [Hp Hk]. split; [exact Hk | congruence].
  - intros [Hk Hp]. split; [congruence | exact Hk].
Qed.

(** X17.  The rule table the listener builds has each key once and all
    keys in lower case.  It maps a key to the category of the last rule
    document whose lower-cased keyword is that key, except that the
    keyword [__proto__] never becomes a key: assigning it creates no
    property. *)
Theorem rule_table_of_snapshot docs k :
  NoDup (map fst (rulesOfSnapshot docs))
  /\ Obj.get k (rulesOfSnapshot docs)
     = option_map (fun d => ruleCategory (snd d))
         (find (keyedBy k) (rev docs))
  /\ Obj.get "__proto__" (rulesOfSnapshot docs) = None
  /\ (forall v, (k, v) ∈ rulesOfSnapshot docs ->
        Js.toLowerCase k = k /\ k <> "__proto__"%string).
Proof.
  split; [apply rulesOfSnapshot_NoDup |].
  split; [apply get_rulesOfSnapshot |]. split.
  - rewrite get_rulesOfSnapshot.
    destruct (find _ (rev docs)) as [e|] eqn:Hf; [| reflexivity].
    apply find_some in Hf as [_ He]. apply keyedBy_spec in He as [_ He].
    contradiction.
  - intros v Hv.
    apply (elem_get _ _ _ (rulesOfSnapshot_NoDup docs)) in Hv.
    rewrite get_rulesOfSnapshot in Hv.
    destruct (find _ (rev docs)) as [e|] eqn:Hf; [| discriminate].
    apply find_some in Hf as [_ He]. apply keyedBy_spec in He as [He Hp].
    split; [| exact Hp]. rewrite <- He. apply toLowerCase_idem.
Qed.

End TableTheory.

(** ** Learner, listener and categorizer together *)

Section RoundTripTheory.

Context `{Number} `{DateFns}.

(** The table holds [c] for [k] when some document is keyed [k] and every
    document keyed [k] has category [c]. *)
Lemma get_rulesOfSnapshot_all docs k c :
  k <> "__proto__"%string ->
  (exists d, d ∈ docs /\ Js.toLowerCase (ruleKeyword (snd d)) = k) ->
  (forall d, d ∈ docs -> Js.toLowerCase (ruleKeyword (snd d)) = k ->
     ruleCategory (snd d) = c) ->
  Obj.get k (rulesOfSnapshot docs) = Some c.
Proof.
  intros Hp (d & Hd & Hk) Hall. rewrite get_rulesOfSnapshot.
  destruct (find _ (rev docs)) as [e|] eqn:Hf.
  - apply find_some in Hf as [He Hke]. apply keyedBy_spec in Hke as [Hke _].
    apply in_rev, list_elem_of_In in He. cbn. now rewrite (Hall e He Hke).
  - exfalso.
    assert (Hin : In d (rev docs)).
    { apply -> in_rev. now apply list_elem_of_In. }
    pose proof (find_none _ _ Hf d Hin) as Hn.
    assert (Ht : keyedBy k d = true) by now apply keyedBy_spec.
    congruence.
Qed.

Lemma table_entry_doc docs k v :
  (k, v) ∈ rulesOfSnapshot docs ->
  exists d, d ∈ docs /\ Js.toLowerCase (ruleKeyword (snd d)) = k
            /\ ruleCategory (snd d) = v.
Proof.
  intros Hin.
  apply (elem_get _ _ _ (rulesOfSnapshot_NoDup docs)) in Hin.
  rewrite get_rulesOfSnapshot in Hin.
  destruct (find _ (rev docs)) as [e|] eqn:Hf; [| discriminate].
  apply find_some in Hf as [He Hke]. apply keyedBy_spec in Hke as [Hke _].
  apply in_rev, list_elem_of_In in He. exists e.
  cbn in Hin. injection Hin as Hv. auto.
Qed.

Lemma firstMatch_all l entries cat c :
  (exists e, e ∈ entries /\ Js.includes l (fst e) = true) ->
  (forall e, e ∈ entries -> Js.includes l (fst e) = true -> snd e = c) ->
  firstMatch l entries cat = c.
Proof.
  induction entries as [|[k v] entries IH]; intros (e & He & Hi) Hall.
  - inversion He.
  - cbn [firstMatch]. destruct (Js.includes l k) eqn:Hk.
    + apply (Hall (k, v)); [left | exact Hk].
    + apply IH.
      * apply elem_of_cons in He as [-> | He]; [cbn in Hi; congruence |].
        now exists e.
      * intros e' He'. apply Hall. now right.
Qed.

Lemma ownRules_elem u col e :
  ownRules u col = true -> e ∈ col ->
  ruleUserId (snd e) = u
  /\ Js.toLowerCase (ruleKeyword (snd e)) = ruleKeyword (snd e).
Proof.
  unfold ownRules. rewrite forallb_forall. intros Hall He.
  specialize (Hall e (proj1 (list_elem_of_In _ _) He)).
  apply andb_true_iff in Hall as [Hu Hk].
  now apply String.eqb_eq in Hu, Hk.
Qed.

(** After the learner's write: the table built from the documents maps
    the keyword to the new category, and every document has the keyword
    of a document that was there or the learned keyword. *)
Lemma upsertRule_table u k c col :
  k <> "__proto__"%string ->
  Js.toLowerCase k = k -> ownRules u col = true -> rulesUnique col ->
  Obj.get k (rulesOfSnapshot (upsertRule u k c col)) = Some c
  /\ forall e, e ∈ upsertRule u k c col ->
       ruleKeyword (snd e) = k
       \/ exists e0, e0 ∈ col /\ ruleKeyword (snd e) = ruleKeyword (snd e0).
Proof.
  intros Hp Hlow Hown [Hnd Hone].
  destruct (upsertRule_cases u k c col)
    as [[Hq ->] | (id & d & rest & Hq & ->)].
  - split.
    + unfold Firestore.addDoc. rewrite rulesOfSnapshot_snoc, get_set.
      cbn [snd ruleKeyword ruleCategory]. rewrite Hlow, String.eqb_refl.
      now rewrite (proj2 (String.eqb_neq _ _) Hp).
    + unfold Firestore.addDoc. intros e He.
      apply elem_of_app in He as [He | He].
      * right. now exists e.
      * left. apply list_elem_of_singleton in He. now subst e.
  - assert (rest = []) as ->.
    { specialize (Hone u k). rewrite Hq in Hone.
      destruct rest; [reflexivity | cbn in Hone; lia]. }
    split.
    + apply get_rulesOfSnapshot_all; [exact Hp | |].
      * exists (updated id c (id, d)). split.
        -- apply list_elem_of_In, in_map, list_elem_of_In.
           apply (elem_of_rulesFor u k col (id, d)). rewrite Hq. left.
        -- unfold updated. cbn. rewrite Nat.eqb_refl. cbn.
           assert (Hin : (id, d) ∈ rulesFor u k col) by (rewrite Hq; left).
           apply elem_of_rulesFor in Hin as (_ & Hk & _). cbn in Hk.
           now rewrite Hk.
      * intros e He Hk.
        apply list_elem_of_In, in_map_iff in He as (e0 & <- & He0).
        apply list_elem_of_In in He0.
        destruct (ownRules_elem u col e0 Hown He0) as [Hu Hl].
        assert (Hk0 : ruleKeyword (snd e0) = k).
        { rewrite <- Hl. rewrite <- Hk. unfold updated.
          now destruct (Nat.eqb (fst e0) id). }
        assert (Hin : e0 ∈ rulesFor u k col)
          by (apply elem_of_rulesFor; auto).
        rewrite Hq in Hin. apply list_elem_of_singleton in Hin. subst e0.
        unfold updated. cbn. now rewrite Nat.eqb_refl.
    + intros e He.
      apply list_elem_of_In, in_map_iff in He as (e0 & <- & He0).
      right. exists e0. split; [now apply list_elem_of_In |].
      unfold updated. now destruct (Nat.eqb (fst e0) id).
Qed.

(** X18.  Learner, listener and categorizer together.  A signed-in user
    whose rule documents are his own, in lower case and one per keyword,
    and whose rule table is the fetched one, gives a stored and fetched
    transaction a category other than "Uncategorized" and the empty one;
    the transaction's keyword is neither empty nor [__proto__] (a keyword
    the rule table cannot hold).  Then the rule table fetched afterwards
    maps the transaction's keyword to that category; and when no other
    stored keyword occurs in the description, the categorizer gives that
    description the category. *)
Theorem learned_rule_categorizes id c st s u i tx :
  session st = Some u ->
  find (fun e => Nat.eqb (fst e) id) (transactions st) = Some (i, tx) ->
  Firestore.exists_ id (transactionsCol s) = true ->
  negb (c =? "Uncategorized")%string && negb (c =? "")%string = true ->
  Js.truthy (keywordCandidate (txDescription tx)) = true ->
  negb (keywordCandidate (txDescription tx) =? "__proto__")%string = true ->
  rules st = rulesOfSnapshot (rulesCol s) ->
  ownRules u (rulesCol s) = true ->
  rulesUnique (rulesCol s) ->
  let table :=
    rulesOfSnapshot (rulesCol (snd (handleCategoryChange id c st s))) in
  Obj.get (keywordCandidate (txDescription tx)) table = Some c
  /\ ((forall e, e ∈ rulesCol s ->
         ruleKeyword (snd e) <> keywordCandidate (txDescription tx) ->
         Js.includes (Js.toLowerCase (txDescription tx))
           (ruleKeyword (snd e)) = false) ->
      categorize (txDescription tx) table = c).
Proof.
  intros Hs Hf He Hc Hk Hp Hsync Hown Huniq table.
  set (k := keywordCandidate (txDescription tx)) in *.
  apply negb_true_iff, String.eqb_neq in Hp.
  assert (Hfacts :
    Obj.get k table = Some c
    /\ forall e, e ∈ rulesCol (snd (handleCategoryChange id c st s)) ->
         ruleKeyword (snd e) = k
         \/ exists e0, e0 ∈ rulesCol s
              /\ ruleKeyword (snd e) = ruleKeyword (snd e0)).
  { subst table. unfold handleCategoryChange. rewrite Hs.
    unfold Firestore.updateDoc. rewrite He.
    cbn [snd rulesCol withRules]. unfold learnRule.
    rewrite Hf, Hc. fold k. rewrite Hk. cbn [andb].
    destruct (ruleOutdated (rules st) k c) eqn:Ho.
    - apply upsertRule_table;
        [exact Hp | apply keywordCandidate_lower | auto | auto].
    - split; [| intros e Hin; right; now exists e].
      unfold ruleOutdated in Ho. rewrite Hsync in Ho.
      destruct (Obj.get k (rulesOfSnapshot (rulesCol s))) as [c'|];
        [| discriminate].
      apply orb_false_iff in Ho as [_ Ho].
      apply negb_false_iff, String.eqb_eq in Ho. now subst c'. }
  destruct Hfacts as [Hget Hdocs]. split; [exact Hget |].
  intros Hother. unfold categorize. apply firstMatch_all.
  - exists (k, c). split.
    + apply elem_of_forIn. now apply get_elem.
    + apply keywordCandidate_included.
  - intros [k' v] Hin Hinc. cbn in *.
    apply (proj1 (elem_of_forIn _ _)) in Hin. fold table in Hin.
    destruct (decide (k' = k)) as [-> | Hne].
    + apply (elem_get _ _ _ (rulesOfSnapshot_NoDup _)) in Hin.
      fold table in Hin. congruence.
    + exfalso. apply table_entry_doc in Hin as (e & Hin & Hke & _).
      destruct (Hdocs e Hin) as [Hek | (e0 & He0 & Hek)].
      * rewrite Hek in Hke. apply Hne. rewrite <- Hke.
        apply keywordCandidate_lower.
      * destruct (ownRules_elem u _ e0 Hown He0) as [_ Hl].
        rewrite Hek, Hl in Hke.
        assert (Js.includes (Js.toLowerCase (txDescription tx))
                  (ruleKeyword (snd e0)) = false)
          by (apply Hother; [exact He0 | congruence]).
        congruence.
Qed.

(** *** Category names *)

Lemma NoDup_map_filter {A B} (f : A -> B) (P : A -> Prop)
    `{forall x, Decision (P x)} (l : list A) :
  NoDup (map f l) -> NoDup (map f (filter P l)).
Proof.
  induction l as [|a l IH]; [constructor |].
  cbn [map]. intros Hnd. apply NoDup_cons in Hnd as [Ha Hnd].
  rewrite filter_cons. case_decide; [| now apply IH].
  cbn [map]. constructor; [| now apply IH].
  intros Hin. apply Ha.
  apply list_elem_of_In, in_map_iff in Hin as (x & Hx & Hin).
  apply list_elem_of_In, list_elem_of_filter in Hin as [_ Hin].
  apply list_elem_of_In, in_map_iff. exists x.
  split; [exact Hx | now apply list_elem_of_In].
Qed.

(** X19.  Category names stay distinct up to letter case: adding a
    category, with the category list being the stored one, and deleting a
    category keep them so. *)
Theorem category_names_stay_unique st s :
  categoriesUnique (categoriesCol s) ->
  (categories st = categoriesCol s ->
   categoriesUnique (categoriesCol (snd (handleAddCategory st s))))
  /\ (forall id,
        categoriesUnique (categoriesCol (snd (handleDeleteCategory id st s)))).
Proof.
  intros Hu. split.
  - intros Hsync. unfold handleAddCategory.
    destruct (if Js.truthy _ then _ else _) as [u|]; [| exact Hu].
    rewrite Hsync.
    destruct (existsb _ (categoriesCol s)) eqn:He; [exact Hu |].
    cbn [snd categoriesCol withCategories]. unfold categoriesUnique in *.
    unfold Firestore.addDoc. rewrite map_app. cbn [map snd catName].
    apply NoDup_app. split; [exact Hu |]. split; [| apply NoDup_singleton].
    intros x Hx Hx'. apply list_elem_of_singleton in Hx'. subst x.
    apply list_elem_of_In, in_map_iff in Hx as (cat & Hcat & Hin).
    assert (Ht : existsb
               (fun cat => (Js.toLowerCase (catName (snd cat))
                  =? Js.toLowerCase (Js.trim (newCategoryName st)))%string)
               (categoriesCol s) = true).
    { apply existsb_exists. exists cat. split; [exact Hin |].
      now apply String.eqb_eq. }
    congruence.
  - intros id. unfold handleDeleteCategory.
    destruct (session st); [| exact Hu].
    cbn [snd categoriesCol withCategories]. unfold Firestore.deleteDoc.
    now apply NoDup_map_filter.
Qed.

(** *** An import that does not end *)

(** X4.  With a file selected and the parser loaded, [parseCsv] leaves
    [loading] set exactly when some row has a non-empty date that cannot
    be printed.  Then nothing was written, the file is still selected, the
    message is 'Parsing CSV...', and the Process CSV and Add Category
    buttons are disabled.  Otherwise, for a signed-in user, the file
    selection is cleared. *)
Theorem import_abort_leaves_loading st s data :
  file st = Some data -> papa st = true ->
  (loading (fst (parseCsv st s)) = true
   <-> exists r, r ∈ data /\ Js.truthy (rawDate r) = true
                 /\ formatParseISO (rawDate r) = None)
  /\ (loading (fst (parseCsv st s)) = true ->
      snd (parseCsv st s) = s
      /\ file (fst (parseCsv st s)) = Some data
      /\ message (fst (parseCsv st s)) = "Parsing CSV..."%string
      /\ forall isAuthenticated,
           processCsvDisabled isAuthenticated (fst (parseCsv st s)) = true
           /\ addCategoryDisabled isAuthenticated (fst (parseCsv st s))
              = true)
  /\ (loading (fst (parseCsv st s)) = false ->
      session st <> None -> file (fst (parseCsv st s)) = None).
Proof.
  intros Hf Hp. unfold parseCsv. rewrite Hf, Hp. cbn [negb].
  unfold complete, parsedTransactions. cbn [rules setMessage setLoading].
  rewrite <- (mapRows_none (rules st) data).
  destruct (mapRows (rules st) data) as [txs|].
  - change (session (setMessage "Parsing CSV..." (setLoading true st)))
      with (session st).
    destruct (session st) as [u|].
    + destruct (saveAll _ _ _) as [col n]. cbn.
      split; [split; discriminate |]. split; [discriminate | reflexivity].
    + cbn. split; [split; discriminate |].
      split; [discriminate |]. intros _ Hn. now destruct Hn.
  - cbn. split; [split; reflexivity |]. split; [| discriminate].
    intros _. rewrite Hf. repeat split.
    + unfold processCsvDisabled. cbn. now rewrite Hf.
    + unfold addCategoryDisabled. cbn [loading setMessage setLoading].
      now rewrite orb_true_r.
Qed.

End RoundTripTheory.

(** ** Instances of the further properties *)

Example proto_keyword_is_not_a_key :
  rulesOfSnapshot
    [(1, {| ruleKeyword := "__proto__"; ruleCategory := "Auto";
            ruleUserId := "u1" |});
     (2, {| ruleKeyword := "Shell Gas"; ruleCategory := "Fuel";
            ruleUserId := "u1" |})]
  = [("shell gas", "Fuel")]
  /\ categorize "__proto__"
       (rulesOfSnapshot
          [(1, {| ruleKeyword := "__proto__"; ruleCategory := "Auto";
                  ruleUserId := "u1" |})])
     = "Uncategorized".
Proof. split; reflexivity. Qed.

Lemma credit_used_witness : resolveAmount salary = parseFloat "2500.00".
Proof.
  apply (credit_used salary "2500.00"); reflexivity.
Defined.

Lemma stored_rows_are_clean_witness :
  description unreadableAmountTx <> EmptyString
  /\ Js.trim (description unreadableAmountTx) = description unreadableAmountTx
  /\ isNaN (amount unreadableAmountTx) = false.
Proof.
  assert (Hp : parsedTransactions [] [unreadableAmount]
               = Some [unreadableAmountTx]) by reflexivity.
  destruct (stored_rows_are_clean [] [unreadableAmount] [unreadableAmountTx]
              unreadableAmountTx Hp ltac:(left))
    as (H1 & H2 & H3 & _).
  exact (conj H1 (conj H2 H3)).
Defined.

Lemma import_abort_witness :
  loading (fst (parseCsv (signedIn "u1" [] (Some [coffee; slashDate]))
                  emptyStore)) = true
  <-> exists r, r ∈ [coffee; slashDate] /\ Js.truthy (rawDate r) = true
                /\ formatParseISO (rawDate r) = None.
Proof.
  apply (import_abort_leaves_loading
           (signedIn "u1" [] (Some [coffee; slashDate])) emptyStore
           [coffee; slashDate]); reflexivity.
Defined.

Lemma every_candidate_is_stored_witness :
  exists d, d ∈ fst (saveAll "u1" [unreadableAmountTx] [])
    /\ txUserId (snd d) = "u1"%string
    /\ docIdentifier (snd d) = txIdentifier unreadableAmountTx.
Proof.
  apply (every_candidate_is_stored "u1" [unreadableAmountTx] []
           unreadableAmountTx).
  left.
Defined.

Lemma small_file_witness :
  snd (saveAll "u1" [unreadableAmountTx; unreadableAmountTx] [])
  = length (filter
              (fun tx => txIdentifier tx
                 ∉ existingTxSet "u1"
                     [unreadableAmountTx; unreadableAmountTx] [])
              [unreadableAmountTx; unreadableAmountTx]).
Proof.
  apply (small_file_written_exactly "u1"
           [unreadableAmountTx; unreadableAmountTx] []).
  unfold batchSize. cbn. lia.
Defined.

Lemma signed_out_witness :
  snd (parseCsv (signedOut (Some [coffee]) "Rent") groceriesStore)
  = groceriesStore
  /\ snd (handleAddCategory (signedOut (Some [coffee]) "Rent") groceriesStore)
     = groceriesStore.
Proof.
  assert (Hs : session (signedOut (Some [coffee]) "Rent") = None)
    by reflexivity.
  destruct (signed_out_handlers_write_nothing
              (signedOut (Some [coffee]) "Rent") groceriesStore Hs)
    as (H1 & _ & H3 & _).
  exact (conj H1 H3).
Defined.

Lemma category_change_witness :
  (1, setCategory "Fuel" learnedDoc)
    ∈ transactionsCol
        (snd (handleCategoryChange 1 "Fuel"
                (sync (signedIn "u1" [] None) learnedStore) learnedStore)).
Proof.
  assert (Hs : session (sync (signedIn "u1" [] None) learnedStore)
               = Some "u1"%string) by reflexivity.
  apply (category_change_on_transaction 1 "Fuel"
           (sync (signedIn "u1" [] None) learnedStore) learnedStore "u1" Hs).
  left.
Defined.

Lemma no_rule_learned_witness :
  rulesCol (snd (handleCategoryChange 1 "Uncategorized"
                   (sync (signedIn "u1" [] None) learnedStore) learnedStore))
  = rulesCol learnedStore.
Proof.
  apply (no_rule_learned 1 "Uncategorized"
           (sync (signedIn "u1" [] None) learnedStore) learnedStore).
  left. reflexivity.
Defined.

Lemma learned_rule_witness :
  Obj.get "shell gas"
    (rulesOfSnapshot
       (rulesCol
          (snd (handleCategoryChange 1 "Fuel"
                  (sync (signedIn "u1" [] None) learnedStore) learnedStore))))
  = Some "Fuel"%string.
Proof.
  apply (learned_rule_categorizes 1 "Fuel"
           (sync (signedIn "u1" [] None) learnedStore) learnedStore "u1"
           1 learnedDoc); try reflexivity.
  apply reachable_unique.
  apply reach_categoryChange, reach_parseCsv, reach_empty.
Defined.

Lemma category_names_witness :
  categoriesUnique
    (categoriesCol
       (snd (handleAddCategory (typing " Rent " groceriesStore)
               groceriesStore))).
Proof.
  apply (category_names_stay_unique (typing " Rent " groceriesStore)
           groceriesStore); [| reflexivity].
  apply NoDup_singleton.
Defined.
